(** * The elapsed-time Timer of the Productivity Tracker front end

    A shallow embedding of [class Timer] (static/js/timer.js) together with
    the [LocalStorage] helper it persists itself through (main.js), and the
    properties of the timer state machine proved over that embedding.

    Conventions of the embedding.
    - Numbers the timer handles are epoch milliseconds and their
      differences; they are exact integers, modelled as [Z].
    - [null] is [None]; a task id is a string or [null].
    - Methods are statements of a small state-and-exception monad over the
      page, [M]; [try]/[catch] is [try_catch].
    - A JavaScript handler runs to completion; [Date.now()] is read from the
      world's [clock], which is set when an event is delivered and does not
      move while its handler runs.
    - [setInterval] hands out fresh handles and registers them in the
      world's [scheduled] set; [clearInterval] removes them; the browser
      fires only registered intervals.
    - The callbacks given to the constructor are collaborators of the timer:
      a call is recorded in the world's [sink] and does not touch the
      timer.  The default tick handler, which is code of the class, is
      embedded as written.
    - [window.localStorage] is a finite map from keys to stored strings.  A
      stored string is the JSON text of a snapshot record, which
      [JSON.parse] reads back as written, or non-empty text on which
      [JSON.parse] throws, or the empty string, which is falsy. *)

From Stdlib Require Import ZArith Ascii String List Lia.
From Stdlib Require Import DecimalString DecimalPos DecimalZ.
From stdpp Require Import base gmap strings.

Local Open Scope string_scope.
Local Open Scope Z_scope.
Local Open Scope list_scope.

(** ** Data *)

(** The fields of a [Timer] object that the class itself assigns. *)
Record Timer := mkTimer {
  startTime : option Z;
  elapsedTime : Z;
  isRunning : bool;
  interval : option positive;
  taskId : option string
}.

(** The record written by [saveState]. *)
Record Snapshot := mkSnapshot {
  snap_startTime : option Z;
  snap_elapsedTime : Z;
  snap_isRunning : bool;
  snap_taskId : option string;
  snap_timestamp : Z
}.

(** A string held by [localStorage]. *)
Inductive Item :=
| ItemJSON (s : Snapshot)   (* [JSON.stringify] of a snapshot record *)
| ItemCorrupt               (* non-empty text that [JSON.parse] rejects *)
| ItemEmpty.                (* the empty string *)

(** [ToBoolean] of a stored string: only the empty string is falsy. *)
Definition item_truthy (i : Item) : bool :=
  match i with
  | ItemEmpty => false
  | _ => true
  end.

(** [window.localStorage]: every access throws when it is unavailable. *)
Record Storage := mkStorage {
  available : bool;
  items : gmap string Item
}.

(** Calls received by the notification callbacks. *)
Inductive Notification :=
| NTick (elapsed : Z)
| NStart (task : option string)
| NStop (task : option string) (total : Z)
| NPause (task : option string) (elapsed : Z).

(** The page the timer lives in. *)
Record World := mkWorld {
  timer : Timer;
  storage : Storage;
  scheduled : gset positive;      (* intervals registered with the browser *)
  next_handle : positive;         (* the handle [setInterval] returns next *)
  clock : Z;                      (* what [Date.now()] returns *)
  display : option string;        (* [displayElement.textContent], if an element was given *)
  custom_onTick : bool;           (* was [options.onTick] given? *)
  sink : list Notification;       (* callback invocations, oldest first *)
  console : list string           (* [console.warn] output, oldest first *)
}.

Definition with_timer (t : Timer) (w : World) : World :=
  mkWorld t (storage w) (scheduled w) (next_handle w) (clock w)
          (display w) (custom_onTick w) (sink w) (console w).

Definition with_clock (c : Z) (w : World) : World :=
  mkWorld (timer w) (storage w) (scheduled w) (next_handle w) c
          (display w) (custom_onTick w) (sink w) (console w).

(** ** Statements: state and exceptions *)

Inductive outcome (A : Type) :=
| Normal (a : A)
| Thrown (e : string).
Arguments Normal {A} a.
Arguments Thrown {A} e.

Definition M (A : Type) : Type := World -> outcome A * World.

Definition ret {A} (a : A) : M A := fun w => (Normal a, w).

Definition bind {A B} (c : M A) (k : A -> M B) : M B :=
  fun w => match c w with
           | (Normal a, w') => k a w'
           | (Thrown e, w') => (Thrown e, w')
           end.

Definition throw {A} (e : string) : M A := fun w => (Thrown e, w).

Definition try_catch {A} (body : M A) (handler : string -> M A) : M A :=
  fun w => match body w with
           | (Normal a, w') => (Normal a, w')
           | (Thrown e, w') => handler e w'
           end.

Notation "'let*' x ':=' c 'in' k" := (bind c (fun x => k))
  (at level 10, x name, c at level 100, k at level 200).
Notation "c ';;' k" := (bind c (fun _ => k))
  (at level 100, k at level 200, right associativity).

Definition this : M Timer := fun w => (Normal (timer w), w).

Definition assign (f : Timer -> Timer) : M unit :=
  fun w => (Normal tt, with_timer (f (timer w)) w).

Definition set_startTime (v : option Z) (t : Timer) : Timer :=
  mkTimer v (elapsedTime t) (isRunning t) (interval t) (taskId t).
Definition set_elapsedTime (v : Z) (t : Timer) : Timer :=
  mkTimer (startTime t) v (isRunning t) (interval t) (taskId t).
Definition set_isRunning (v : bool) (t : Timer) : Timer :=
  mkTimer (startTime t) (elapsedTime t) v (interval t) (taskId t).
Definition set_interval (v : option positive) (t : Timer) : Timer :=
  mkTimer (startTime t) (elapsedTime t) (isRunning t) v (taskId t).
Definition set_taskId (v : option string) (t : Timer) : Timer :=
  mkTimer (startTime t) (elapsedTime t) (isRunning t) (interval t) v.

(** ** JavaScript values *)

(** [ToNumber]: [null] is [0]. *)
Definition toNumber (v : option Z) : Z := default 0 v.

(** [ToBoolean] of a number or [null]: [null] and [0] are falsy. *)
Definition truthy (v : option Z) : bool :=
  match v with
  | Some z => negb (z =? 0)
  | None => false
  end.

(** [Number.prototype.toString] on an integer. *)
Definition Number_toString (z : Z) : string :=
  NilEmpty.string_of_int (Z.to_int z).

(** [String.prototype.padStart] with a one-character filler. *)
Definition padStart (target : nat) (fill : ascii) (s : string) : string :=
  if (target <=? String.length s)%nat then s
  else string_of_list_ascii (repeat fill (target - String.length s)) +:+ s.

(** ** The browser *)

Definition Date_now : M Z := fun w => (Normal (clock w), w).

Definition console_warn (msg : string) : M unit :=
  fun w => (Normal tt,
            mkWorld (timer w) (storage w) (scheduled w) (next_handle w) (clock w)
                    (display w) (custom_onTick w) (sink w) (console w ++ [msg])).

Definition notify (n : Notification) : M unit :=
  fun w => (Normal tt,
            mkWorld (timer w) (storage w) (scheduled w) (next_handle w) (clock w)
                    (display w) (custom_onTick w) (sink w ++ [n]) (console w)).

Definition set_display (txt : string) : M unit :=
  fun w => (Normal tt,
            mkWorld (timer w) (storage w) (scheduled w) (next_handle w) (clock w)
                    (Some txt) (custom_onTick w) (sink w) (console w)).

Definition with_items (m : gmap string Item) (w : World) : World :=
  mkWorld (timer w) (mkStorage (available (storage w)) m) (scheduled w)
          (next_handle w) (clock w) (display w) (custom_onTick w) (sink w)
          (console w).

Definition localStorage_setItem (key : string) (v : Item) : M unit :=
  fun w => if available (storage w)
           then (Normal tt, with_items (<[key := v]> (items (storage w))) w)
           else (Thrown "localStorage.setItem", w).

Definition localStorage_getItem (key : string) : M (option Item) :=
  fun w => if available (storage w)
           then (Normal (items (storage w) !! key), w)
           else (Thrown "localStorage.getItem", w).

Definition localStorage_removeItem (key : string) : M unit :=
  fun w => if available (storage w)
           then (Normal tt, with_items (delete key (items (storage w))) w)
           else (Thrown "localStorage.removeItem", w).

Definition JSON_stringify (s : Snapshot) : Item := ItemJSON s.

Definition JSON_parse (i : Item) : M Snapshot :=
  match i with
  | ItemJSON s => ret s
  | ItemCorrupt => throw "SyntaxError"
  | ItemEmpty => throw "SyntaxError"
  end.

(** [setInterval(callback, 1000)]: registers a recurring callback and returns
    its handle.  Every callback the timer registers has the same body,
    [interval_callback] below. *)
Definition setInterval : M positive :=
  fun w => (Normal (next_handle w),
            mkWorld (timer w) (storage w) ({[next_handle w]} ∪ scheduled w)
                    (Pos.succ (next_handle w)) (clock w) (display w)
                    (custom_onTick w) (sink w) (console w)).

(** [clearInterval(handle)]; [clearInterval(null)] does nothing. *)
Definition clearInterval (h : option positive) : M unit :=
  fun w => (Normal tt,
            match h with
            | Some i =>
                mkWorld (timer w) (storage w) (scheduled w ∖ {[i]})
                        (next_handle w) (clock w) (display w)
                        (custom_onTick w) (sink w) (console w)
            | None => w
            end).

(** ** main.js: [LocalStorage] *)

Module LocalStorage.

Definition set (key : string) (value : Snapshot) : M unit :=
  try_catch
    (localStorage_setItem key (JSON_stringify value))
    (fun e => console_warn "LocalStorage set failed:").

Definition get (key : string) (defaultValue : option Snapshot)
  : M (option Snapshot) :=
  try_catch
    (let* item := localStorage_getItem key in
     match item with
     | Some i =>
         if item_truthy i then let* v := JSON_parse i in ret (Some v)
         else ret defaultValue
     | None => ret defaultValue
     end)
    (fun e => console_warn "LocalStorage get failed:" ;; ret defaultValue).

Definition remove (key : string) : M unit :=
  try_catch
    (localStorage_removeItem key)
    (fun e => console_warn "LocalStorage remove failed:").

End LocalStorage.

(** ** timer.js: [class Timer] *)

(** The four callback slots.  [onTick] is [options.onTick] when given and
    the class's own [defaultOnTick] otherwise. *)
Definition onStart (task : option string) : M unit := notify (NStart task).
Definition onStop (task : option string) (total : Z) : M unit :=
  notify (NStop task total).
Definition onPause (task : option string) (elapsed : Z) : M unit :=
  notify (NPause task elapsed).

Definition formatTime (milliseconds : Z) : string :=
  let seconds := milliseconds / 1000 in
  let hours := seconds / 3600 in
  let minutes := Z.rem seconds 3600 / 60 in
  let secs := Z.rem seconds 60 in
  padStart 2 "0" (Number_toString hours) +:+ ":" +:+
  padStart 2 "0" (Number_toString minutes) +:+ ":" +:+
  padStart 2 "0" (Number_toString secs).

Definition defaultOnTick (elapsed : Z) : M unit :=
  fun w => match display w with
           | Some _ => set_display (formatTime elapsed) w
           | None => (Normal tt, w)
           end.

Definition onTick (elapsed : Z) : M unit :=
  notify (NTick elapsed) ;;
  fun w => if custom_onTick w then (Normal tt, w) else defaultOnTick elapsed w.

Definition getElapsedSeconds : M Z :=
  let* t := this in ret (elapsedTime t / 1000).

Definition saveState : M unit :=
  let* t := this in
  let* now := Date_now in
  let state := mkSnapshot (startTime t) (elapsedTime t) (isRunning t)
                          (taskId t) now in
  LocalStorage.set "timerState" state.

Definition clearState : M unit := LocalStorage.remove "timerState".

(** The arrow function handed to [setInterval] by [start] and by
    [resumeTimer]. *)
Definition interval_callback : M unit :=
  let* now := Date_now in
  let* t := this in
  assign (set_elapsedTime (now - toNumber (startTime t))) ;;
  let* t := this in
  onTick (elapsedTime t) ;;
  saveState.

Definition resumeTimer : M unit :=
  let* t := this in
  if truthy (startTime t) && isRunning t then
    let* h := setInterval in
    assign (set_interval (Some h))
  else ret tt.

Definition constructor : M unit :=
  assign (set_startTime None) ;;
  assign (set_elapsedTime 0) ;;
  assign (set_isRunning false) ;;
  assign (set_interval None) ;;
  assign (set_taskId None) ;;
  let* t := this in
  if isRunning t then resumeTimer else ret tt.

Definition start (task : option string) : M bool :=
  let* t := this in
  if isRunning t then ret false
  else
    assign (set_taskId task) ;;
    let* now := Date_now in
    let* t := this in
    assign (set_startTime (Some (now - elapsedTime t))) ;;
    assign (set_isRunning true) ;;
    let* h := setInterval in
    assign (set_interval (Some h)) ;;
    let* t := this in
    onStart (taskId t) ;;
    saveState ;;
    ret true.

Definition reset : M unit :=
  assign (set_isRunning false) ;;
  assign (set_elapsedTime 0) ;;
  assign (set_startTime None) ;;
  assign (set_taskId None) ;;
  let* t := this in
  (match interval t with
   | Some h => clearInterval (Some h) ;; assign (set_interval None)
   | None => ret tt
   end) ;;
  onTick 0 ;;
  clearState.

Definition stop : M bool :=
  let* t := this in
  if negb (isRunning t) then ret false
  else
    assign (set_isRunning false) ;;
    let* t := this in
    clearInterval (interval t) ;;
    assign (set_interval None) ;;
    let* t := this in
    let totalTime := elapsedTime t in
    onStop (taskId t) totalTime ;;
    reset ;;
    ret true.

Definition pause : M bool :=
  let* t := this in
  if negb (isRunning t) then ret false
  else
    assign (set_isRunning false) ;;
    let* t := this in
    clearInterval (interval t) ;;
    assign (set_interval None) ;;
    let* t := this in
    onPause (taskId t) (elapsedTime t) ;;
    saveState ;;
    ret true.

Definition resume : M bool :=
  let* t := this in
  if isRunning t then ret false
  else start (taskId t).

Definition loadState : M unit :=
  let* state := LocalStorage.get "timerState" None in
  match state with
  | Some s =>
      if snap_isRunning s then
        let* now := Date_now in
        let timeSinceLastUpdate := now - snap_timestamp s in
        if timeSinceLastUpdate <? 24 * 60 * 60 * 1000 then
          assign (set_startTime (snap_startTime s)) ;;
          assign (set_elapsedTime (snap_elapsedTime s)) ;;
          assign (set_isRunning (snap_isRunning s)) ;;
          assign (set_taskId (snap_taskId s)) ;;
          let* t := this in
          if isRunning t && truthy (startTime t) then
            let* now := Date_now in
            let* t := this in
            assign (set_elapsedTime (now - toNumber (startTime t)))
          else ret tt
        else ret tt
      else ret tt
  | None => ret tt
  end.

(** ** timer.js: the part of [TimerUI] that writes the timer's fields *)

(** The [visibilitychange] listener, run when the page becomes visible. *)
Definition on_visible : M unit :=
  let* t := this in
  if isRunning t then
    let* now := Date_now in
    let* t := this in
    assign (set_elapsedTime (now - toNumber (startTime t))) ;;
    let* t := this in
    onTick (elapsedTime t)
  else ret tt.

(** ** Events *)

(** What can happen to a constructed timer: a call of one of its public
    methods, the browser firing a registered interval, or the page becoming
    visible again. *)
Inductive Event :=
| EvStart (task : option string)
| EvStop
| EvPause
| EvResume
| EvReset
| EvTick (h : positive)
| EvVisible.

(** A caller that drops the method's result. *)
Definition ignore {A} (c : M A) : M unit := c ;; ret tt.

Definition handler (ev : Event) : M unit :=
  match ev with
  | EvStart task => ignore (start task)
  | EvStop => ignore stop
  | EvPause => ignore pause
  | EvResume => ignore resume
  | EvReset => reset
  | EvTick h =>
      fun w => if decide (h ∈ scheduled w) then interval_callback w
               else (Normal tt, w)
  | EvVisible => on_visible
  end.

(** Delivering event [ev] at wall-clock time [now]. *)
Definition deliver (now : Z) (ev : Event) (w : World) : World :=
  snd (handler ev (with_clock now w)).

(** Delivering a list of timestamped events in order. *)
Fixpoint run (evs : list (Z * Event)) (w : World) : World :=
  match evs with
  | [] => w
  | (now, ev) :: rest => run rest (deliver now ev w)
  end.

(** The page before the timer is constructed, and the freshly constructed
    timer in it. *)
Definition page (st : Storage) (now : Z) (disp : option string)
    (custom : bool) : World :=
  mkWorld (mkTimer None 0 false None None) st ∅ 1%positive now disp custom [] [].

Definition new_Timer (st : Storage) (now : Z) (disp : option string)
    (custom : bool) : World :=
  snd (constructor (page st now disp custom)).

(** An available store holding nothing. *)
Definition empty_storage : Storage := mkStorage true ∅.

(** * Vocabulary of the statements *)

(** ** Particular timers and stores *)

(** The fields as the constructor leaves them. *)
Definition idle : Timer := mkTimer None 0 false None None.

(** A store holding the snapshot of a timer that was started at epoch 1000
    on task T1 and last saved, running, at epoch 4000. *)
Definition running_snapshot : Snapshot :=
  mkSnapshot (Some 1000) 3000 true (Some "T1") 4000.

Definition store_with (i : Item) : Storage :=
  mkStorage true {["timerState" := i]}.

(** ** The pause and resume scenario *)

(** A timer is constructed in some page, started at epoch 1000, ticked at
    epoch 4000, paused at 4500, resumed at 5000 and ticked at 7000.  The
    first interval of a page has handle 1, the second handle 2. *)
Section Scenario.

Variables (st : Storage) (disp : option string) (custom : bool).
Variable task : option string.

Definition s0 : World := new_Timer st 0 disp custom.
Definition s1 : World := deliver 1000 (EvStart task) s0.
Definition s2 : World := deliver 4000 (EvTick 1) s1.
Definition s3 : World := deliver 4500 EvPause s2.
Definition s4 : World := deliver 5000 EvResume s3.
Definition s5 : World := deliver 7000 (EvTick 2) s4.

(** The scenario with the values the specification gives. *)
Definition scenario_as_specified : Prop :=
  sink s2 = sink s1 ++ [NTick 3000] /\
  sink s3 = sink s2 ++ [NPause task 3500] /\
  isRunning (timer s3) = false /\
  startTime (timer s4) = Some (5000 - 3500) /\
  sink s5 = sink s4 ++ [NTick 5500].

(** The scenario with the values the code produces: [pause] reports the
    elapsed time of the last tick. *)
Definition scenario_as_run : Prop :=
  interval (timer s1) = Some 1%positive /\
  sink s2 = sink s1 ++ [NTick 3000] /\
  sink s3 = sink s2 ++ [NPause task 3000] /\
  isRunning (timer s3) = false /\
  startTime (timer s4) = Some (5000 - 3000) /\
  interval (timer s4) = Some 2%positive /\
  sink s5 = sink s4 ++ [NTick 5000].

End Scenario.

(** ** Stopping *)

(** What [LocalStorage.get] would return for the snapshot key. *)
Definition stored_snapshot (w : World) : outcome (option Snapshot) :=
  fst (LocalStorage.get "timerState" None w).

(** The claim of C3 at one world: after [stop()] the timer is cleared and the
    snapshot is gone from the store. *)
Definition stop_clears (w : World) : Prop :=
  let w' := snd (stop w) in
  elapsedTime (timer w') = 0 /\
  taskId (timer w') = None /\
  isRunning (timer w') = false /\
  items (storage w') !! "timerState" = None.

(** A timer started on task T1 at epoch 1000 and paused at epoch 4500 after
    its tick at epoch 4000. *)
Definition paused_world : World :=
  run [(1000, EvStart (Some "T1")); (4000, EvTick 1); (4500, EvPause)]
      (new_Timer empty_storage 0 None false).

(** ** Restoring *)

(** The cases in which the store, read at time [now], offers nothing to
    restore. *)
Inductive nothing_to_restore (st : Storage) (now : Z) : Prop :=
| snapshot_absent :
    available st = true ->
    items st !! "timerState" = None ->
    nothing_to_restore st now
| read_fails :
    available st = false ->
    nothing_to_restore st now
| record_corrupt :
    available st = true ->
    items st !! "timerState" = Some ItemCorrupt ->
    nothing_to_restore st now
| record_empty :
    available st = true ->
    items st !! "timerState" = Some ItemEmpty ->
    nothing_to_restore st now
| snapshot_not_running s :
    available st = true ->
    items st !! "timerState" = Some (ItemJSON s) ->
    snap_isRunning s = false ->
    nothing_to_restore st now
| snapshot_stale s :
    available st = true ->
    items st !! "timerState" = Some (ItemJSON s) ->
    24 * 60 * 60 * 1000 <= now - snap_timestamp s ->
    nothing_to_restore st now.

(** ** Reachable states *)

(** Another tab, or the user, may rewrite [localStorage] between events. *)
Definition with_storage (st : Storage) (w : World) : World :=
  mkWorld (timer w) st (scheduled w) (next_handle w) (clock w)
          (display w) (custom_onTick w) (sink w) (console w).

(** The worlds a page can be in: the timer has been constructed, and then
    events are delivered at arbitrary times, with the store changing
    arbitrarily in between. *)
Inductive reachable : World -> Prop :=
| reach_new st now disp custom :
    reachable (new_Timer st now disp custom)
| reach_deliver w now ev :
    reachable w -> reachable (deliver now ev w)
| reach_storage w st :
    reachable w -> reachable (with_storage st w).

(** The timer's handle and flag agree with the browser's interval table. *)
Definition consistent (w : World) : Prop :=
  match interval (timer w) with
  | Some h => scheduled w = {[h]} /\ isRunning (timer w) = true
  | None => scheduled w = ∅ /\ isRunning (timer w) = false
  end.

(** Restore-on-load at time [now]: [loadState] adopts the stored snapshot,
    then [resumeTimer] schedules the interval. *)
Definition restore_on_load (now : Z) (w : World) : World :=
  snd ((loadState ;; resumeTimer) (with_clock now w)).

(** The worlds a page can be in when restore-on-load is one of the
    operations; [may_restore now w] tells where it may be applied. *)
Inductive reachable_restoring (may_restore : Z -> World -> Prop)
  : World -> Prop :=
| restoring_new st now disp custom :
    reachable_restoring may_restore (new_Timer st now disp custom)
| restoring_deliver w now ev :
    reachable_restoring may_restore w ->
    reachable_restoring may_restore (deliver now ev w)
| restoring_storage w st :
    reachable_restoring may_restore w ->
    reachable_restoring may_restore (with_storage st w)
| restoring_restore w now :
    reachable_restoring may_restore w -> may_restore now w ->
    reachable_restoring may_restore (restore_on_load now w).

(** Restore-on-load applied wherever one likes. *)
Definition anywhere (now : Z) (w : World) : Prop := True.

(** The claim of C7 over every state so reachable. *)
Definition running_iff_handle_always : Prop :=
  forall w, reachable_restoring anywhere w ->
    isRunning (timer w) = true <-> is_Some (interval (timer w)).

(** A snapshot that says running and carries no start time. *)
Definition snapshot_without_start : Snapshot :=
  mkSnapshot None 3000 true (Some "T1") 4000.

(** A page loaded at epoch 5000 over that snapshot, and restored. *)
Definition restored_without_start : World :=
  restore_on_load 5000
    (new_Timer (store_with (ItemJSON snapshot_without_start)) 5000 None false).

(** Restore-on-load finds a timer that is not running, and the store offers
    it nothing or a snapshot whose start time is a non-zero number. *)
Definition restores_startable (now : Z) (w : World) : Prop :=
  isRunning (timer w) = false /\
  (nothing_to_restore (storage w) now \/
   exists s, items (storage w) !! "timerState" = Some (ItemJSON s) /\
             truthy (snap_startTime s) = true).

(** ** The task reference *)

(** A timer that is not running but still holds a start time or an elapsed
    time: paused with retained state. *)
Definition retains_state (t : Timer) : Prop :=
  isRunning t = false /\ (startTime t <> None \/ elapsedTime t <> 0).

(** The claim of C6 over every reachable state. *)
Definition task_always_present : Prop :=
  forall w, reachable w ->
    isRunning (timer w) = true \/ retains_state (timer w) ->
    taskId (timer w) <> None.

(** An event that brings a task along: [start] is given a non-null id, and
    [resume] is called while the timer holds one. *)
Definition supplies_task (w : World) (ev : Event) : Prop :=
  match ev with
  | EvStart task => is_Some task
  | EvResume => is_Some (taskId (timer w))
  | _ => True
  end.

(** The worlds reached when every event brings its task along. *)
Inductive reachable_with_task : World -> Prop :=
| tasked_new st now disp custom :
    reachable_with_task (new_Timer st now disp custom)
| tasked_deliver w now ev :
    reachable_with_task w -> supplies_task w ev ->
    reachable_with_task (deliver now ev w)
| tasked_storage w st :
    reachable_with_task w -> reachable_with_task (with_storage st w).

(** Without a task the timer is idle. *)
Definition task_or_idle (w : World) : Prop :=
  taskId (timer w) = None ->
  startTime (timer w) = None /\ elapsedTime (timer w) = 0 /\
  isRunning (timer w) = false.

(** ** Runs in time *)

(** Event times that never go back from [t]. *)
Fixpoint chronological (t : Z) (evs : list (Z * Event)) : Prop :=
  match evs with
  | [] => True
  | (t', _) :: rest => t <= t' /\ chronological t' rest
  end.

(** Events other than the full reset ([stop] ends in [reset]). *)
Definition keeps_elapsed (ev : Event) : bool :=
  match ev with
  | EvStop | EvReset => false
  | _ => true
  end.

(** The worlds a run passes through, in order. *)
Fixpoint trace (evs : list (Z * Event)) (w : World) : list World :=
  match evs with
  | [] => []
  | (now, ev) :: rest => deliver now ev w :: trace rest (deliver now ev w)
  end.

(** A value handed to the tick callback is at least [E]. *)
Definition tick_at_least (E : Z) (n : Notification) : Prop :=
  match n with
  | NTick e => E <= e
  | _ => True
  end.

(** The elapsed time is at least [E], and so is every value handed to the
    tick callback since the sink held [before]. *)
Definition above_floor (E : Z) (before : list Notification) (w : World) : Prop :=
  E <= elapsedTime (timer w) /\
  exists new, sink w = before ++ new /\ Forall (tick_at_least E) new.

(** What a run keeps true once time has reached [t]: a running timer's
    start time lies at least [E] before [t]. *)
Definition floor_inv (E : Z) (before : list Notification) (t : Z) (w : World)
  : Prop :=
  consistent w /\
  above_floor E before w /\
  (isRunning (timer w) = true ->
   exists s, startTime (timer w) = Some s /\ s + E <= t).

(** ** Decimal fields *)

(** The number a string of decimal digits denotes; [None] when the string
    is empty or holds anything but digits. *)
Definition decimal_value (s : string) : option Z :=
  option_map Z.of_uint (NilZero.uint_of_string s).

(** * Further vocabulary *)

(** ** One tab on its own *)

(** The worlds reached when the store is available, holds no snapshot when
    the timer is constructed, and nobody else writes it. *)
Inductive reachable_alone : World -> Prop :=
| alone_new st now disp custom :
    available st = true ->
    items st !! "timerState" = None ->
    reachable_alone (new_Timer st now disp custom)
| alone_deliver w now ev :
    reachable_alone w -> reachable_alone (deliver now ev w).

(** The stored snapshot agrees with the timer on the start time, the running
    flag and the task, and the timer has been started; when there is no
    snapshot the timer is idle. *)
Definition snapshot_mirrors (w : World) : Prop :=
  match items (storage w) !! "timerState" with
  | Some (ItemJSON s) =>
      snap_startTime s = startTime (timer w) /\
      snap_isRunning s = isRunning (timer w) /\
      snap_taskId s = taskId (timer w) /\
      is_Some (startTime (timer w))
  | Some _ => False
  | None => timer w = idle
  end.

(** ** Runs in which the clock does not go back *)

(** [chronological_from t w]: [w] is reached from a timer constructed no
    later than [t] by events delivered at times that never decrease, the
    last no later than [t]. *)
Inductive chronological_from : Z -> World -> Prop :=
| chrono_new st now disp custom :
    chronological_from now (new_Timer st now disp custom)
| chrono_deliver t w now ev :
    chronological_from t w -> t <= now ->
    chronological_from now (deliver now ev w)
| chrono_storage t w st :
    chronological_from t w -> chronological_from t (with_storage st w).

(** A running timer started no later than its elapsed time before [t]. *)
Definition started_before (t : Z) (w : World) : Prop :=
  0 <= elapsedTime (timer w) /\
  (isRunning (timer w) = true ->
   exists s, startTime (timer w) = Some s /\ s + elapsedTime (timer w) <= t).

(** ** Runs from a given page *)

(** The worlds reached from [w0] by delivering events, with the store
    changing arbitrarily in between. *)
Inductive reachable_from (w0 : World) : World -> Prop :=
| from_here : reachable_from w0 w0
| from_deliver w now ev :
    reachable_from w0 w -> reachable_from w0 (deliver now ev w)
| from_storage w st :
    reachable_from w0 w -> reachable_from w0 (with_storage st w).

(** The display element shows [txt], which is either what it showed when
    the timer was constructed (and nothing has been counted yet) or the
    rendering of the current elapsed time. *)
Definition display_current (txt0 : string) (w : World) : Prop :=
  custom_onTick w = false /\
  (display w = Some txt0 /\ elapsedTime (timer w) = 0 \/
   display w = Some (formatTime (elapsedTime (timer w)))).

(** * main.js: formatting helpers *)

Module Main.

(** [formatDuration(seconds)]; the argument is a number or [null]. *)
Definition formatDuration (seconds : option Z) : string :=
  match seconds with
  | None => "0m"
  | Some seconds =>
      if (seconds =? 0) || (seconds <? 0) then "0m"
      else
        let hours := seconds / 3600 in
        let minutes := Z.rem seconds 3600 / 60 in
        let secs := Z.rem seconds 60 in
        if 0 <? hours then
          Number_toString hours +:+ "h " +:+ Number_toString minutes +:+ "m"
        else if 0 <? minutes then
          Number_toString minutes +:+ "m " +:+ Number_toString secs +:+ "s"
        else
          Number_toString secs +:+ "s"
  end.

(** [formatTime(seconds)], the helper exported by main.js; it takes whole
    seconds where [Timer.formatTime] takes milliseconds. *)
Definition formatTime (seconds : Z) : string :=
  let hours := seconds / 3600 in
  let minutes := Z.rem seconds 3600 / 60 in
  let secs := Z.rem seconds 60 in
  padStart 2 "0" (Number_toString hours) +:+ ":" +:+
  padStart 2 "0" (Number_toString minutes) +:+ ":" +:+
  padStart 2 "0" (Number_toString secs).

End Main.

(** ** Digit strings *)

Definition is_digit (c : ascii) : bool :=
  match c with
  | "0" | "1" | "2" | "3" | "4" | "5" | "6" | "7" | "8" | "9" => true
  | _ => false
  end%char.

Fixpoint all_digits (s : string) : bool :=
  match s with
  | EmptyString => true
  | String c rest => is_digit c && all_digits rest
  end.

(** A string that does not go on with a digit. *)
Definition no_leading_digit (s : string) : Prop :=
  match s with
  | EmptyString => True
  | String c _ => is_digit c = false
  end.

(** * main.js: [debounce] *)

(** [debounce(func, wait)] returns a function that shares one variable,
    [timeout], with the callbacks it schedules.  The arguments of a call
    are of some type [A]; [func] is a collaborator whose invocations are
    recorded. *)
Section Debounce.

Variable A : Type.
Variable wait : Z.

Record Debounced := mkDebounced {
  timeout : option positive;         (* the variable [timeout]; [undefined] at first *)
  pending : gmap positive (Z * A);   (* timeouts the browser holds: due time, captured arguments *)
  next_timeout : positive;           (* the handle [setTimeout] returns next *)
  invoked : list A                   (* calls of [func], oldest first *)
}.

Definition debounce : Debounced := mkDebounced None ∅ 1%positive [].

(** [clearTimeout(handle)]; [clearTimeout(undefined)] does nothing. *)
Definition clearTimeout (h : option positive) (d : Debounced) : Debounced :=
  match h with
  | Some i => mkDebounced (timeout d) (delete i (pending d)) (next_timeout d)
                          (invoked d)
  | None => d
  end.

(** [setTimeout(later, delay)] at time [now]: the callback, which has captured
    [args], becomes due [delay] milliseconds later, a negative delay
    counting as zero. *)
Definition setTimeout (now delay : Z) (args : A) (d : Debounced)
  : positive * Debounced :=
  (next_timeout d,
   mkDebounced (timeout d)
               (<[next_timeout d := (now + Z.max 0 delay, args)]> (pending d))
               (Pos.succ (next_timeout d)) (invoked d)).

(** The arrow function [later], with the arguments it captured. *)
Definition later (args : A) (d : Debounced) : Debounced :=
  let d := clearTimeout (timeout d) d in
  mkDebounced (timeout d) (pending d) (next_timeout d) (invoked d ++ [args]).

(** [executedFunction(...args)], called at time [now]. *)
Definition executedFunction (now : Z) (args : A) (d : Debounced) : Debounced :=
  let d := clearTimeout (timeout d) d in
  let (h, d) := setTimeout now wait args d in
  mkDebounced (Some h) (pending d) (next_timeout d) (invoked d).

(** The browser runs timeout [h] at time [now] if it is still held and due;
    a timeout runs once. *)
Definition fire (now : Z) (h : positive) (d : Debounced) : Debounced :=
  match pending d !! h with
  | Some (due, args) =>
      if due <=? now then
        later args (mkDebounced (timeout d) (delete h (pending d))
                                (next_timeout d) (invoked d))
      else d
  | None => d
  end.

Inductive DebounceEvent :=
| DCall (args : A)
| DFire (h : positive).

Definition debounce_step (d : Debounced) (e : Z * DebounceEvent) : Debounced :=
  match e with
  | (now, DCall args) => executedFunction now args d
  | (now, DFire h) => fire now h d
  end.

Definition debounce_run (evs : list (Z * DebounceEvent)) : Debounced :=
  fold_left debounce_step evs debounce.

(** The time and arguments of the most recent call in a history. *)
Definition last_call (evs : list (Z * DebounceEvent)) : option (Z * A) :=
  fold_left (fun acc e => match e with
                          | (now, DCall args) => Some (now, args)
                          | _ => acc
                          end) evs None.

(** The number of calls in a history. *)
Definition calls_in (evs : list (Z * DebounceEvent)) : nat :=
  fold_left (fun n e => match e with
                        | (_, DCall _) => S n
                        | _ => n
                        end) evs 0%nat.

(** What holds after any history: nothing is pending, or the one pending
    timeout is the one [timeout] names, set by the most recent call. *)
Definition debounce_inv (evs : list (Z * DebounceEvent)) (d : Debounced) : Prop :=
  (pending d = ∅ \/
   exists h t a, timeout d = Some h /\
                 pending d = {[h := (t + Z.max 0 wait, a)]} /\
                 last_call evs = Some (t, a)) /\
  (length (invoked d) + size (pending d) <= calls_in evs)%nat.

End Debounce.

Arguments timeout {A} d.
Arguments pending {A} d.
Arguments next_timeout {A} d.
Arguments invoked {A} d.
Arguments DCall {A} args.
Arguments DFire {A} h.

(** * main.js: form fields and navigation links *)

(** A form field: what [checkValidity()] answers for its current value, and
    its [classList]. *)
Record Field := mkField {
  validity : bool;
  classList : gset string
}.

Definition classList_add (c : string) (f : Field) : Field :=
  mkField (validity f) ({[c]} ∪ classList f).

Definition classList_remove (c : string) (f : Field) : Field :=
  mkField (validity f) (classList f ∖ {[c]}).

Definition validateField (field : Field) : bool * Field :=
  let isValid := validity field in
  if isValid then
    (isValid, classList_add "is-valid" (classList_remove "is-invalid" field))
  else
    (isValid, classList_add "is-invalid" (classList_remove "is-valid" field)).

(** The listeners [initializeFormEnhancements] puts on a required field.
    The user's edit has already changed the value, hence the validity,
    when the [input] listener runs. *)
Definition on_blur (field : Field) : Field := snd (validateField field).

Definition on_input (field : Field) : Field :=
  if decide ("is-invalid" ∈ classList field) then snd (validateField field)
  else field.

Definition edit (now_valid : bool) (field : Field) : Field :=
  mkField now_valid (classList field).

(** A link of the navigation bar: its [href] attribute, [null] when absent,
    and whether its [classList] holds [active]. *)
Record NavLink := mkNavLink {
  href : option string;
  active : bool
}.

(** The test [highlightActiveNavigation] makes for one link. *)
Definition matches_path (currentPath : string) (href : option string) : bool :=
  match href with
  | Some h =>
      negb (String.eqb h "") &&
      (String.eqb currentPath h ||
       (negb (String.eqb h "/") && String.prefix h currentPath))
  | None => false
  end.

Definition highlightActiveNavigation (currentPath : string)
    (navLinks : list NavLink) : list NavLink :=
  map (fun link =>
         if matches_path currentPath (href link)
         then mkNavLink (href link) true
         else mkNavLink (href link) false)
      navLinks.

(** * Properties *)

(** ** Proof support *)

#[local] Set Warnings "-clear-no-such-hyp".

(** Unfolds a method down to the world it produces. *)
Ltac exec :=
  cbv [handler deliver ignore run page new_Timer
       start stop pause resume reset loadState resumeTimer constructor
       interval_callback on_visible saveState clearState getElapsedSeconds
       onTick defaultOnTick onStart onStop onPause
       notify set_display console_warn Date_now setInterval clearInterval
       LocalStorage.set LocalStorage.get LocalStorage.remove
       localStorage_setItem localStorage_getItem localStorage_removeItem
       JSON_parse JSON_stringify item_truthy try_catch throw bind ret this assign
       set_startTime set_elapsedTime set_isRunning set_interval set_taskId
       with_timer with_clock with_items toNumber truthy default from_option id
       timer storage scheduled next_handle clock display custom_onTick sink
       console startTime elapsedTime isRunning interval taskId
       snap_startTime snap_elapsedTime snap_isRunning snap_taskId
       snap_timestamp available items andb negb fst snd].

(** Opens a world into its fields. *)
Ltac open_world w :=
  destruct w as [[start_time elapsed running handle task] [avail stored]
                 sched fresh_handle clk text custom calls warnings].

(** ** The transitions *)

(** [saveState] writes the timer's fields, stamped with the current time,
    under the snapshot key. *)
Lemma saveState_writes (w : World) :
  available (storage w) = true ->
  exists w',
    saveState w = (Normal tt, w') /\
    items (storage w') !! "timerState" =
      Some (ItemJSON (mkSnapshot (startTime (timer w)) (elapsedTime (timer w))
                                 (isRunning (timer w)) (taskId (timer w))
                                 (clock w))) /\
    timer w' = timer w /\ scheduled w' = scheduled w /\ sink w' = sink w.
Proof.
  intros Hav. open_world w. cbn in Hav. subst avail.
  eexists. split; [exec; reflexivity |]. cbn.
  rewrite lookup_insert_eq. repeat split.
Qed.

(** A store that cannot be written is left alone, with a warning. *)
Lemma saveState_swallows_failure (w : World) :
  available (storage w) = false ->
  exists w',
    saveState w = (Normal tt, w') /\
    storage w' = storage w /\
    timer w' = timer w /\ scheduled w' = scheduled w /\ sink w' = sink w.
Proof.
  intros Hav. open_world w. cbn in Hav. subst avail.
  eexists. split; [exec; reflexivity |]. repeat split.
Qed.

(** [start] on a timer that is not running. *)
Lemma start_accepted (w : World) (id : option string) :
  isRunning (timer w) = false ->
  exists w',
    start id w = (Normal true, w') /\
    timer w' = mkTimer (Some (clock w - elapsedTime (timer w)))
                       (elapsedTime (timer w)) true
                       (Some (next_handle w)) id /\
    scheduled w' = {[next_handle w]} ∪ scheduled w /\
    sink w' = sink w ++ [NStart id] /\
    clock w' = clock w /\
    display w' = display w /\
    custom_onTick w' = custom_onTick w.
Proof.
  intros Hrun. open_world w. cbn in Hrun. subst running.
  destruct avail; eexists; (split; [exec; reflexivity |]); repeat split.
Qed.

Lemma resume_is_start (w : World) :
  isRunning (timer w) = false -> resume w = start (taskId (timer w)) w.
Proof. intros Hrun. open_world w. cbn in Hrun. subst running. reflexivity. Qed.

(** [pause] on a running timer: the elapsed time is reported as the last
    tick left it. *)
Lemma pause_accepted (w : World) :
  isRunning (timer w) = true ->
  exists w',
    pause w = (Normal true, w') /\
    timer w' = mkTimer (startTime (timer w)) (elapsedTime (timer w)) false
                       None (taskId (timer w)) /\
    scheduled w' = scheduled w ∖ from_option singleton ∅ (interval (timer w)) /\
    sink w' = sink w ++ [NPause (taskId (timer w)) (elapsedTime (timer w))].
Proof.
  intros Hrun. open_world w. cbn in Hrun. subst running.
  destruct avail, handle; eexists; (split; [exec; reflexivity |]);
    repeat split; set_solver.
Qed.

(** A tick recomputes the elapsed time from the clock, reports it and,
    with the default handler and a display element, renders it. *)
Lemma interval_callback_recomputes (w : World) :
  let e := clock w - toNumber (startTime (timer w)) in
  exists w',
    interval_callback w = (Normal tt, w') /\
    timer w' = set_elapsedTime e (timer w) /\
    scheduled w' = scheduled w /\
    sink w' = sink w ++ [NTick e] /\
    display w' = (if custom_onTick w then display w
                  else match display w with
                       | Some _ => Some (formatTime e)
                       | None => None
                       end).
Proof.
  open_world w. destruct avail, text, custom;
    eexists; (split; [exec; reflexivity |]); repeat split.
Qed.

(** The browser fires only intervals that are registered. *)
Lemma tick_scheduled (h : positive) (w : World) :
  h ∈ scheduled w -> handler (EvTick h) w = interval_callback w.
Proof. intros Hin. cbn. now rewrite decide_True. Qed.

Lemma tick_not_scheduled (h : positive) (w : World) :
  h ∉ scheduled w -> handler (EvTick h) w = (Normal tt, w).
Proof. intros Hin. cbn. now rewrite decide_False. Qed.



(** ** Construction *)


Lemma new_Timer_world st now disp custom :
  new_Timer st now disp custom =
  mkWorld idle st ∅ 1%positive now disp custom [] [].
Proof. reflexivity. Qed.

(** C1, evaluated on the code: a page is reloaded at epoch 5000 while the
    store holds a running snapshot saved 1000 ms earlier.  The constructed
    timer is idle (not running, elapsed 0, no task, no interval
    scheduled) instead of running with elapsed 5000 - 1000; the snapshot is
    still in the store.  Calling [loadState] and then [resumeTimer] by hand
    on the same page does produce the restored timer. *)
Theorem constructor_does_not_restore :
  let w := new_Timer (store_with (ItemJSON running_snapshot)) 5000 None false in
  timer w = idle /\
  scheduled w = ∅ /\
  elapsedTime (timer w) <> 5000 - 1000 /\
  items (storage w) !! "timerState" = Some (ItemJSON running_snapshot) /\
  let w' := snd ((loadState ;; resumeTimer) w) in
  timer w' = mkTimer (Some 1000) 4000 true (Some 1%positive) (Some "T1") /\
  scheduled w' = {[1%positive]}.
Proof. vm_compute. repeat split; discriminate. Qed.

(** ** The pause and resume scenario *)

(** C2, as the specification states it, fails on the code: [pause] at epoch
    4500 reports the elapsed time computed by the last tick, 3000. *)
Lemma scenario_as_specified_fails :
  ~ scenario_as_specified empty_storage None false (Some "T1").
Proof.
  unfold scenario_as_specified. intros (_ & Hpause & _).
  vm_compute in Hpause. discriminate Hpause.
Qed.

(** C2, amended: start at epoch 1000; the tick at epoch 4000 passes 3000 to
    the tick callback; [pause()] at epoch 4500 passes 3000 to the pause
    callback and leaves [isRunning] false; [resume()] at epoch 5000 sets
    [startTime] to 5000 - 3000 = 2000; the tick at epoch 7000 passes 5000. *)
Theorem scenario_runs st disp custom task :
  scenario_as_run st disp custom task.
Proof.
  unfold scenario_as_run, s5, s4, s3, s2, s1, s0.
  destruct st as [[|] stored], disp, custom;
    vm_compute; repeat split; reflexivity.
Qed.

(** ** Rejected calls *)

(** C4: [start] on a running timer, [resume] on a running timer, and
    [pause] and [stop] on a timer that is not running return [false]
    normally and leave the whole world as it was: no field of the timer
    changes, no callback is invoked, nothing is scheduled or stored. *)
Theorem rejected_calls_are_noops (w : World) (id : option string) :
  (isRunning (timer w) = true ->
     start id w = (Normal false, w) /\ resume w = (Normal false, w)) /\
  (isRunning (timer w) = false ->
     pause w = (Normal false, w) /\ stop w = (Normal false, w)).
Proof.
  open_world w; split; intros Hrun; cbn in Hrun; subst; split; reflexivity.
Qed.

(** ** [reset] and [stop] *)

Lemma reset_clears (w : World) :
  exists w',
    reset w = (Normal tt, w') /\
    timer w' = idle /\
    scheduled w' = scheduled w ∖ from_option singleton ∅ (interval (timer w)) /\
    sink w' = sink w ++ [NTick 0] /\
    (available (storage w) = true ->
       items (storage w') = delete "timerState" (items (storage w))) /\
    stored_snapshot w' = Normal None.
Proof.
  open_world w. destruct avail, handle, text, custom;
    eexists; (split; [exec; reflexivity |]);
    unfold stored_snapshot; exec; rewrite ?lookup_delete_eq;
    repeat split; try reflexivity; try discriminate; set_solver.
Qed.

(** C3, as stated for every state, fails on a paused timer: [stop()] is
    rejected there, so the elapsed time, the task and the snapshot stay. *)
Lemma stop_on_paused_keeps_state : ~ stop_clears paused_world.
Proof.
  unfold stop_clears. intros (Helapsed & _).
  vm_compute in Helapsed. discriminate Helapsed.
Qed.

(** C3, amended: [stop()] on a running timer returns [true] and leaves
    [elapsedTime = 0], [taskId = null], [isRunning = false],
    [startTime = null] and no interval; the snapshot key is removed from an
    available store, and in every case [LocalStorage.get] afterwards yields
    no snapshot. *)
Theorem stop_running_clears (w : World) :
  isRunning (timer w) = true ->
  exists w',
    stop w = (Normal true, w') /\
    elapsedTime (timer w') = 0 /\
    taskId (timer w') = None /\
    isRunning (timer w') = false /\
    startTime (timer w') = None /\
    interval (timer w') = None /\
    sink w' = sink w ++ [NStop (taskId (timer w)) (elapsedTime (timer w));
                         NTick 0] /\
    (available (storage w) = true ->
       items (storage w') !! "timerState" = None) /\
    stored_snapshot w' = Normal None.
Proof.
  intros Hrun. open_world w. cbn in Hrun. subst.
  destruct avail, handle, text, custom;
    eexists; (split; [exec; reflexivity |]);
    unfold stored_snapshot; exec; rewrite ?lookup_delete_eq;
    repeat split; try reflexivity; try discriminate;
    now rewrite <- app_assoc.
Qed.

Lemma stop_running_clears_witness :
  exists w',
    stop (deliver 1000 (EvStart (Some "T1")) (new_Timer empty_storage 0 None false))
      = (Normal true, w') /\
    elapsedTime (timer w') = 0 /\
    taskId (timer w') = None /\
    isRunning (timer w') = false /\
    startTime (timer w') = None /\
    interval (timer w') = None /\
    sink w' = [NStart (Some "T1")] ++ [NStop (Some "T1") 0; NTick 0] /\
    (true = true -> items (storage w') !! "timerState" = None) /\
    stored_snapshot w' = Normal None.
Proof.
  apply (stop_running_clears
           (deliver 1000 (EvStart (Some "T1"))
                    (new_Timer empty_storage 0 None false))).
  reflexivity.
Defined.

Lemma rejected_calls_are_noops_witness :
  let running := deliver 1000 (EvStart (Some "T1"))
                         (new_Timer empty_storage 0 None false) in
  let fresh := new_Timer empty_storage 0 None false in
  (start (Some "T2") running = (Normal false, running) /\
   resume running = (Normal false, running)) /\
  (pause fresh = (Normal false, fresh) /\ stop fresh = (Normal false, fresh)).
Proof.
  split.
  - apply (rejected_calls_are_noops
             (deliver 1000 (EvStart (Some "T1"))
                      (new_Timer empty_storage 0 None false))).
    reflexivity.
  - apply (rejected_calls_are_noops (new_Timer empty_storage 0 None false) None).
    reflexivity.
Defined.

(** ** [resume] on an idle timer *)

(** C10: on an idle timer [resume()] is accepted.  It returns [true], the
    timer is running with [taskId = null] and [startTime] equal to the
    current time, an interval is scheduled, the start callback receives
    [null], and a tick at time [t] reports [t - now]: elapsed time counts
    from zero. *)
Theorem resume_on_idle_starts (w : World) :
  isRunning (timer w) = false ->
  elapsedTime (timer w) = 0 ->
  taskId (timer w) = None ->
  exists w',
    resume w = (Normal true, w') /\
    isRunning (timer w') = true /\
    taskId (timer w') = None /\
    startTime (timer w') = Some (clock w) /\
    elapsedTime (timer w') = 0 /\
    interval (timer w') = Some (next_handle w) /\
    next_handle w ∈ scheduled w' /\
    sink w' = sink w ++ [NStart None] /\
    forall t,
      elapsedTime (timer (deliver t (EvTick (next_handle w)) w')) = t - clock w.
Proof.
  intros Hrun Hel Htask.
  destruct (start_accepted w None Hrun)
    as (w' & Hstart & Htimer & Hsched & Hsink & _).
  exists w'. rewrite resume_is_start, Htask by assumption.
  rewrite Htimer, Hel, Z.sub_0_r. cbn.
  repeat split; try assumption.
  - rewrite Hsched. set_solver.
  - intros t. unfold deliver.
    rewrite tick_scheduled by (cbn; rewrite Hsched; set_solver).
    destruct (interval_callback_recomputes (with_clock t w'))
      as (w'' & Htick & Hticked & _).
    rewrite Htick. cbn [snd]. rewrite Hticked. cbn. rewrite Htimer. cbn. lia.
Qed.

Lemma resume_on_idle_starts_witness :
  exists w',
    resume (new_Timer empty_storage 1000 None false) = (Normal true, w') /\
    isRunning (timer w') = true /\
    taskId (timer w') = None /\
    startTime (timer w') = Some 1000 /\
    elapsedTime (timer w') = 0 /\
    interval (timer w') = Some 1%positive /\
    1%positive ∈ scheduled w' /\
    sink w' = [] ++ [NStart None] /\
    forall t, elapsedTime (timer (deliver t (EvTick 1) w')) = t - 1000.
Proof.
  apply (resume_on_idle_starts (new_Timer empty_storage 1000 None false));
    reflexivity.
Defined.

(** ** Restoring from the store *)

(** In those cases [loadState] returns normally and changes nothing but the
    console, whatever the timer's state. *)
Lemma loadState_nothing_to_restore (w : World) :
  nothing_to_restore (storage w) (clock w) ->
  exists w',
    loadState w = (Normal tt, w') /\
    timer w' = timer w /\
    scheduled w' = scheduled w /\
    storage w' = storage w /\
    sink w' = sink w /\
    display w' = display w.
Proof.
  intros Hcase. open_world w.
  destruct Hcase as [Hav Hit | Hav | Hav Hit | Hav Hit | s Hav Hit Hrun
                     | s Hav Hit Hold];
    try destruct s as [? ? r ? ts];
    cbn in *; subst; exec; rewrite ?Hit; exec.
  - eexists; repeat split.
  - eexists; repeat split.
  - eexists; repeat split.
  - eexists; repeat split.
  - eexists; repeat split.
  - destruct r; [| eexists; repeat split].
    destruct (Z.ltb_spec (clk - ts) (24 * 60 * 60 * 1000)) as [Hlt | Hge];
      [lia | eexists; repeat split].
Qed.

(** C8: when the snapshot is absent, the store cannot be read, the record
    does not parse or is empty, the snapshot has [isRunning = false], or the
    snapshot is 24 hours old or older, restoring into a freshly constructed timer
    returns normally and the timer stays idle: no field is adopted, no
    callback runs, and [resumeTimer] schedules no interval. *)
Theorem restore_leaves_idle st now disp custom :
  nothing_to_restore st now ->
  exists w',
    constructor (page st now disp custom)
      = (Normal tt, new_Timer st now disp custom) /\
    loadState (new_Timer st now disp custom) = (Normal tt, w') /\
    timer w' = idle /\
    scheduled w' = ∅ /\
    sink w' = [] /\
    resumeTimer w' = (Normal tt, w').
Proof.
  intros Hcase.
  destruct (loadState_nothing_to_restore (new_Timer st now disp custom))
    as (w' & Hload & Htimer & Hsched & _ & Hsink & _); [exact Hcase |].
  exists w'. repeat split; try assumption.
  destruct w' as [t ? ? ? ? ? ? ? ?]. cbn in Htimer. subst t. reflexivity.
Qed.

Lemma restore_leaves_idle_witness :
  exists w',
    constructor (page (store_with (ItemJSON running_snapshot))
                      (4000 + 24 * 60 * 60 * 1000) None false)
      = (Normal tt, new_Timer (store_with (ItemJSON running_snapshot))
                              (4000 + 24 * 60 * 60 * 1000) None false) /\
    loadState (new_Timer (store_with (ItemJSON running_snapshot))
                         (4000 + 24 * 60 * 60 * 1000) None false)
      = (Normal tt, w') /\
    timer w' = idle /\
    scheduled w' = ∅ /\
    sink w' = [] /\
    resumeTimer w' = (Normal tt, w').
Proof.
  apply (restore_leaves_idle (store_with (ItemJSON running_snapshot))
                             (4000 + 24 * 60 * 60 * 1000) None false).
  apply (snapshot_stale _ _ running_snapshot); [reflexivity | reflexivity |].
  vm_compute. discriminate.
Defined.

(** ** Reachable states *)

Lemma deliver_consistent (w : World) now ev :
  consistent w -> consistent (deliver now ev w).
Proof.
  unfold consistent. open_world w. cbn.
  destruct handle as [h |]; intros [Hsched Hrun]; subst;
    destruct ev as [id | | | | | h' |]; exec;
    try destruct (decide (h' ∈ _));
    destruct avail, text, custom; cbn;
    split; try reflexivity; try set_solver.
Qed.

Lemma reachable_consistent (w : World) : reachable w -> consistent w.
Proof.
  induction 1 as [st now disp custom | w now ev _ IH | w st _ IH].
  - split; reflexivity.
  - now apply deliver_consistent.
  - exact IH.
Qed.

Lemma restore_on_load_consistent (w : World) now :
  consistent w -> restores_startable now w ->
  consistent (restore_on_load now w).
Proof.
  unfold consistent, restores_startable, restore_on_load. open_world w. cbn.
  intros Hcons [-> Hcase].
  destruct handle as [h |]; destruct Hcons as [-> Hrun]; [discriminate |].
  destruct Hcase as [Hcase | (s & Hit & Hst)].
  - destruct Hcase as [Hav Hit | Hav | Hav Hit | Hav Hit | s Hav Hit Hrun'
                       | s Hav Hit Hold];
      try destruct s as [? ? r ? ts];
      cbn in *; subst; exec; rewrite ?Hit; exec;
      try (destruct r; [discriminate |]);
      try (destruct r;
           [destruct (Z.ltb_spec (now - ts) (24 * 60 * 60 * 1000)); [lia |] |]);
      destruct start_time as [[| ? | ?] |]; split; reflexivity.
  - destruct s as [[T |] el r id ts]; [| discriminate].
    cbn in Hst. apply negb_true_iff, Z.eqb_neq in Hst.
    destruct avail; exec; rewrite ?Hit; exec.
    + destruct r, (now - ts <? 24 * 60 * 60 * 1000); exec;
        repeat (rewrite (proj2 (Z.eqb_neq T 0) Hst); exec);
        try (destruct start_time as [[| ? | ?] |]);
        split; solve [reflexivity | set_solver].
    + destruct start_time as [[| ? | ?] |]; split; reflexivity.
Qed.

Lemma reachable_restoring_consistent (w : World) :
  reachable_restoring restores_startable w -> consistent w.
Proof.
  induction 1 as [st now disp custom | w now ev _ IH | w st _ IH
                  | w now _ IH Hmay].
  - split; reflexivity.
  - now apply deliver_consistent.
  - exact IH.
  - now apply restore_on_load_consistent.
Qed.

(** Every state reached without restore-on-load is among those. *)
Lemma reachable_is_restoring (may_restore : Z -> World -> Prop) (w : World) :
  reachable w -> reachable_restoring may_restore w.
Proof. induction 1; now constructor. Qed.

(** What restore-on-load leaves of a snapshot that says running and carries
    no start time: the flag is adopted and nothing is scheduled. *)
Lemma restored_without_start_fields :
  timer restored_without_start = mkTimer None 3000 true None (Some "T1") /\
  scheduled restored_without_start = ∅.
Proof. split; reflexivity. Qed.

(** Why restore-on-load has to find the timer not running: applied to a
    running timer it schedules a second interval over the held one, and a
    pause then cancels only the second. *)
Lemma restore_on_running_timer_leaks :
  let w := run [(3000, EvPause)]
               (restore_on_load 2000
                  (run [(1000, EvStart (Some "T1"))]
                       (new_Timer empty_storage 0 None false))) in
  isRunning (timer w) = false /\
  interval (timer w) = None /\
  scheduled w = {[1%positive]}.
Proof. repeat split; reflexivity. Qed.

(** C7, as stated, fails: a page loaded over a snapshot that says running
    and carries no start time comes out of restore-on-load with
    [isRunning = true], no interval handle and nothing scheduled. *)
Lemma restored_running_without_interval : ~ running_iff_handle_always.
Proof.
  intros Hclaim.
  destruct (Hclaim restored_without_start) as [Hheld _].
  - apply restoring_restore; [apply restoring_new | exact I].
  - destruct Hheld as [h Hh]; [reflexivity |].
    rewrite (proj1 restored_without_start_fields) in Hh. discriminate Hh.
Qed.

(** C7, amended: in every state reached from the constructed timer by the
    methods, ticks, visibility refreshes and restore-on-load, where
    restore-on-load is applied to a timer that is not running and adopts
    only a snapshot whose start time is a non-zero number, [isRunning] is
    true exactly when the timer holds an interval handle, exactly when the
    browser has an interval scheduled; the interval scheduled is the one
    the timer holds. *)
Theorem running_iff_interval_scheduled (w : World) :
  reachable_restoring restores_startable w ->
  (isRunning (timer w) = true <-> is_Some (interval (timer w))) /\
  (isRunning (timer w) = true <-> scheduled w <> ∅) /\
  scheduled w = from_option singleton ∅ (interval (timer w)).
Proof.
  intros Hreach. apply reachable_restoring_consistent in Hreach.
  unfold consistent in Hreach.
  destruct (interval (timer w)) as [h |]; destruct Hreach as [Hsched Hrun];
    rewrite Hsched, Hrun; cbn; repeat split; done.
Qed.

Lemma running_iff_interval_scheduled_witness :
  let w := run [(6000, EvTick 1); (7000, EvPause); (9000, EvResume)]
               (restore_on_load 5000
                  (new_Timer (store_with (ItemJSON running_snapshot))
                             5000 None false)) in
  (isRunning (timer w) = true <-> is_Some (interval (timer w))) /\
  (isRunning (timer w) = true <-> scheduled w <> ∅) /\
  scheduled w = from_option singleton ∅ (interval (timer w)).
Proof.
  apply (running_iff_interval_scheduled
           (run [(6000, EvTick 1); (7000, EvPause); (9000, EvResume)]
                (restore_on_load 5000
                   (new_Timer (store_with (ItemJSON running_snapshot))
                              5000 None false)))).
  cbn [run].
  apply restoring_deliver, restoring_deliver, restoring_deliver,
        restoring_restore; [apply restoring_new |].
  split; [reflexivity |]. right. exists running_snapshot.
  split; reflexivity.
Defined.

(** ** The task reference *)

(** C6, as stated, fails: [resume()] on a freshly constructed timer starts
    it with [taskId = null]. *)
Lemma running_without_task : ~ task_always_present.
Proof.
  intros Hclaim.
  apply (Hclaim (deliver 1000 EvResume (new_Timer empty_storage 0 None false))).
  - apply reach_deliver, reach_new.
  - left. reflexivity.
  - reflexivity.
Qed.

Lemma reachable_with_task_reachable (w : World) :
  reachable_with_task w -> reachable w.
Proof. induction 1; now constructor. Qed.

Lemma deliver_task_or_idle (w : World) now ev :
  consistent w -> task_or_idle w -> supplies_task w ev ->
  task_or_idle (deliver now ev w).
Proof.
  unfold consistent, task_or_idle. open_world w. cbn.
  intros Hcons Hidle Hsup.
  destruct ev as [id | | | | | h' |]; cbn in Hsup;
    [destruct Hsup as [x ->] | | | destruct Hsup as [x ->] | | |];
    destruct handle as [h |]; destruct Hcons as [-> ->];
    exec; try destruct (decide (h' ∈ _));
    destruct avail, text, custom; cbn;
    intros Hnone; try discriminate; try (now apply Hidle);
    try (repeat split; reflexivity);
    try (destruct (Hidle Hnone) as (_ & _ & Hfalse); discriminate);
    set_solver.
Qed.

Lemma reachable_with_task_idle (w : World) :
  reachable_with_task w -> task_or_idle w.
Proof.
  induction 1 as [st now disp custom | w now ev Hreach IH Hsup | w st _ IH].
  - intros _. repeat split.
  - apply deliver_task_or_idle; try assumption.
    now apply reachable_consistent, reachable_with_task_reachable.
  - exact IH.
Qed.

(** Only [stop] and [reset] take the task away, and they leave the timer
    idle. *)
Lemma task_lost_only_by_reset (w : World) now ev :
  consistent w -> supplies_task w ev ->
  is_Some (taskId (timer w)) ->
  taskId (timer (deliver now ev w)) = None ->
  (ev = EvStop \/ ev = EvReset) /\ timer (deliver now ev w) = idle.
Proof.
  unfold consistent. open_world w. cbn.
  intros Hcons Hsup [x ->].
  destruct ev as [id | | | | | h' |]; cbn in Hsup;
    [destruct Hsup as [y ->] | | | | | |];
    destruct handle as [h |]; destruct Hcons as [-> ->];
    exec; try destruct (decide (h' ∈ _));
    destruct avail, text, custom; cbn;
    intros Hnone; try discriminate;
    (split; [auto | reflexivity]).
Qed.

(** C6, amended: in every state reached from the constructed timer by
    [start] with a non-null task id, [resume] called while a task id is
    held, [pause], [stop], [reset], ticks and visibility refreshes, the
    task id is non-null whenever the timer is running or is paused with
    retained state; and an event takes the task id away only if it is
    [stop] or [reset], which leave every field at its idle default. *)
Theorem task_present_unless_idle (w : World) :
  reachable_with_task w ->
  (isRunning (timer w) = true \/ retains_state (timer w) ->
   is_Some (taskId (timer w))) /\
  (forall now ev,
     supplies_task w ev ->
     is_Some (taskId (timer w)) ->
     taskId (timer (deliver now ev w)) = None ->
     (ev = EvStop \/ ev = EvReset) /\ timer (deliver now ev w) = idle).
Proof.
  intros Hreach. split.
  - pose proof (reachable_with_task_idle w Hreach) as Hidle.
    unfold task_or_idle, retains_state in *.
    destruct (taskId (timer w)) as [id |]; [eauto |].
    destruct (Hidle eq_refl) as (Hst & Hel & Hrun).
    intros [Hr | [_ [Hs | He]]]; congruence.
  - intros now ev. apply task_lost_only_by_reset.
    now apply reachable_consistent, reachable_with_task_reachable.
Qed.

Lemma task_present_unless_idle_witness :
  (isRunning (timer paused_world) = true \/ retains_state (timer paused_world) ->
   is_Some (taskId (timer paused_world))) /\
  (forall now ev,
     supplies_task paused_world ev ->
     is_Some (taskId (timer paused_world)) ->
     taskId (timer (deliver now ev paused_world)) = None ->
     (ev = EvStop \/ ev = EvReset) /\ timer (deliver now ev paused_world) = idle).
Proof.
  apply (task_present_unless_idle paused_world).
  unfold paused_world. cbn [run].
  apply tasked_deliver;
    [apply tasked_deliver;
       [apply tasked_deliver; [apply tasked_new | now eexists] | exact I]
    | exact I].
Defined.

(** ** Elapsed time across pause and resume *)

Section Floor.

Variable E : Z.
Variable before : list Notification.

Lemma sink_extend (new : list Notification) (n : Notification) :
  Forall (tick_at_least E) new -> tick_at_least E n ->
  exists new', (before ++ new) ++ [n] = before ++ new' /\
               Forall (tick_at_least E) new'.
Proof.
  intros Hnew Hn. exists (new ++ [n]). split.
  - now rewrite app_assoc.
  - apply Forall_app. split; [assumption | now constructor].
Qed.

Lemma deliver_floor_inv (t t' : Z) (ev : Event) (w : World) :
  floor_inv E before t w -> t <= t' -> keeps_elapsed ev = true ->
  floor_inv E before t' (deliver t' ev w).
Proof.
  intros (Hcons & Hfloor & Hstart) Hle Hkeep.
  split; [now apply deliver_consistent |].
  revert Hcons Hfloor Hstart.
  unfold consistent, above_floor. open_world w. cbn.
  intros Hcons (Hel & new & -> & Hnew) Hstart.
  destruct ev as [id | | | | | h' |]; try discriminate Hkeep;
    destruct handle as [h |]; destruct Hcons as [-> ->];
    try (destruct (Hstart eq_refl) as (s & -> & Hs)); clear Hstart;
    exec; try destruct (decide (h' ∈ _));
    destruct avail, text, custom; cbn;
    (split; [split; [try lia | first [ now eauto | apply sink_extend; cbn; trivial; try lia] ] |]);
    try (intros Hrun; try discriminate; eexists; (split; [reflexivity | lia])).
Qed.

Lemma run_floor_inv (evs : list (Z * Event)) :
  forall t w,
    floor_inv E before t w -> chronological t evs ->
    Forall (fun e => keeps_elapsed (snd e) = true) evs ->
    Forall (above_floor E before) (trace evs w).
Proof.
  induction evs as [| [t' ev] rest IH]; intros t w Hinv Hchron Hkeep.
  - constructor.
  - destruct Hchron as [Hle Hchron].
    apply Forall_cons in Hkeep. destruct Hkeep as [Hev Hkeep].
    pose proof (deliver_floor_inv t t' ev w Hinv Hle Hev) as Hinv'.
    cbn [trace]. constructor.
    + apply Hinv'.
    + now apply (IH t').
Qed.

End Floor.

(** C5: take a reachable timer that is not running, with elapsed time [E],
    and resume it at time [t]; let any events other than [stop] and [reset]
    follow, at times that do not go back.  [resume] sets
    [startTime = t - E], and in every world the run passes through the
    elapsed time is at least [E], as is every value handed to the tick
    callback after the resume. *)
Theorem resume_keeps_elapsed_floor (w : World) (t : Z) (evs : list (Z * Event)) :
  reachable w ->
  isRunning (timer w) = false ->
  chronological t evs ->
  Forall (fun e => keeps_elapsed (snd e) = true) evs ->
  startTime (timer (deliver t EvResume w)) = Some (t - elapsedTime (timer w)) /\
  Forall (above_floor (elapsedTime (timer w)) (sink w))
         (trace ((t, EvResume) :: evs) w).
Proof.
  intros Hreach Hrun Hchron Hkeep. split.
  - open_world w. cbn in Hrun. subst. destruct avail; reflexivity.
  - apply (run_floor_inv _ _ _ t).
    + split; [now apply reachable_consistent |]. split.
      * split; [lia |]. exists []. split; [now rewrite app_nil_r | constructor].
      * intros Hr. congruence.
    + cbn. split; [lia | assumption].
    + constructor; [reflexivity | assumption].
Qed.

Lemma resume_keeps_elapsed_floor_witness :
  startTime (timer (deliver 5000 EvResume paused_world))
    = Some (5000 - elapsedTime (timer paused_world)) /\
  Forall (above_floor (elapsedTime (timer paused_world)) (sink paused_world))
         (trace [(5000, EvResume); (7000, EvTick 2); (7500, EvPause);
                 (9000, EvStart (Some "T2")); (9500, EvVisible)]
                paused_world).
Proof.
  apply (resume_keeps_elapsed_floor paused_world 5000
           [(7000, EvTick 2); (7500, EvPause);
            (9000, EvStart (Some "T2")); (9500, EvVisible)]).
  - unfold paused_world. cbn [run].
    apply reach_deliver, reach_deliver, reach_deliver, reach_new.
  - reflexivity.
  - cbn. lia.
  - repeat constructor.
Defined.

(** The floor is real: in the witness run the elapsed time at the pause is
    3000, and the tick at epoch 7000 reports 5000. *)
Example resume_floor_values :
  elapsedTime (timer paused_world) = 3000 /\
  map (fun w => elapsedTime (timer w))
      (trace [(5000, EvResume); (7000, EvTick 2); (7500, EvPause);
              (9000, EvStart (Some "T2")); (9500, EvVisible)]
             paused_world)
  = [3000; 5000; 5000; 5000; 5500].
Proof. vm_compute. split; reflexivity. Qed.

(** A restored timer: with an available store holding a running snapshot
    younger than 24 hours whose start time is a non-zero number,
    [loadState] followed by [resumeTimer] adopts the snapshot, recomputes
    the elapsed time from the clock and schedules an interval. *)
Lemma loadState_then_resumeTimer (w : World) (s : Snapshot) (T : Z) :
  available (storage w) = true ->
  items (storage w) !! "timerState" = Some (ItemJSON s) ->
  snap_isRunning s = true ->
  clock w - snap_timestamp s < 24 * 60 * 60 * 1000 ->
  snap_startTime s = Some T -> T <> 0 ->
  let w' := snd ((loadState ;; resumeTimer) w) in
  timer w' = mkTimer (Some T) (clock w - T) true (Some (next_handle w))
                     (snap_taskId s) /\
  scheduled w' = {[next_handle w]} ∪ scheduled w.
Proof.
  intros Hav Hit Hrun Hage Hst HT. open_world w.
  destruct s as [st el r task' ts].
  cbn in *. subst. exec. rewrite Hit. exec.
  rewrite (proj2 (Z.ltb_lt _ _) Hage). exec.
  repeat (rewrite (proj2 (Z.eqb_neq T 0) HT); exec).
  split; reflexivity.
Qed.

(** ** The display format *)

Lemma length_append (s1 s2 : string) :
  String.length (s1 +:+ s2) = (String.length s1 + String.length s2)%nat.
Proof.
  induction s1 as [| c s1 IH]; [reflexivity |].
  change (S (String.length (s1 +:+ s2)) = S (String.length s1 + String.length s2)%nat).
  now rewrite IH.
Qed.

Lemma length_filler (c : ascii) (k : nat) :
  String.length (string_of_list_ascii (repeat c k)) = k.
Proof. induction k as [| k IH]; cbn; [reflexivity | now rewrite IH]. Qed.

Lemma padStart_length (n : nat) (c : ascii) (s : string) :
  String.length (padStart n c s) = Nat.max n (String.length s).
Proof.
  unfold padStart. destruct (Nat.leb_spec n (String.length s)) as [Hle | Hlt].
  - lia.
  - rewrite length_append, length_filler. lia.
Qed.

Lemma length_string_of_uint (u : Decimal.uint) :
  String.length (NilEmpty.string_of_uint u) = Decimal.nb_digits u.
Proof. induction u; cbn; congruence. Qed.

(** A non-negative integer prints as its decimal digits, at least one. *)
Lemma Number_toString_nonneg (z : Z) :
  0 <= z ->
  exists u, Number_toString z = NilEmpty.string_of_uint u /\
            Z.of_uint u = z /\ u <> Decimal.Nil.
Proof.
  intros Hz. destruct z as [| p | p]; [| | lia].
  - exists (Decimal.D0 Decimal.Nil). repeat split. discriminate.
  - exists (Pos.to_uint p). repeat split.
    + exact (DecimalZ.of_to (Z.pos p)).
    + apply DecimalPos.Unsigned.to_uint_nonnil.
Qed.

(** Padding to two places does not change the number printed. *)
Lemma decimal_value_padStart (z : Z) :
  0 <= z -> decimal_value (padStart 2 "0" (Number_toString z)) = Some z.
Proof.
  intros Hz. destruct (Number_toString_nonneg z Hz) as (u & -> & Hval & Hnil).
  assert (Hparse : NilZero.uint_of_string (NilEmpty.string_of_uint u) = Some u).
  { pose proof (NilZero.usu u Hnil) as Husu. destruct u; [congruence | exact Husu ..]. }
  unfold padStart, decimal_value. rewrite length_string_of_uint.
  destruct (Decimal.nb_digits u) as [| [| n]] eqn:Hdigits.
  - destruct u; cbn in Hdigits; congruence.
  - change (option_map Z.of_uint
              (uint_of_char "0" (NilEmpty.uint_of_string (NilEmpty.string_of_uint u)))
            = Some z).
    rewrite NilEmpty.usu. cbn [uint_of_char option_map].
    now rewrite <- Hval.
  - cbn [Nat.leb]. rewrite Hparse. cbn. now rewrite Hval.
Qed.

(** Numbers from ten up are printed unpadded. *)
Lemma padStart_two_digits (z : Z) :
  10 <= z -> padStart 2 "0" (Number_toString z) = Number_toString z.
Proof.
  intros Hz. destruct z as [| p | p]; try lia.
  unfold padStart, Number_toString. cbn [Z.to_int NilEmpty.string_of_int].
  rewrite length_string_of_uint.
  pose proof (DecimalPos.Unsigned.of_to p) as Hof.
  destruct (Pos.to_uint p) as [| u | u | u | u | u | u | u | u | u | u];
    [cbn in Hof; discriminate Hof | ..];
    destruct u; cbn in Hof |- *; try reflexivity;
    first [discriminate Hof | injection Hof as Hof; lia].
Qed.

(** Numbers below sixty are printed in exactly two places. *)
Lemma padStart_below_sixty (z : Z) :
  0 <= z < 60 -> String.length (padStart 2 "0" (Number_toString z)) = 2%nat.
Proof.
  intros Hz. destruct z as [| p | p]; [reflexivity | | lia].
  assert (Hp : (p < 60)%positive) by lia. clear Hz.
  do 6 (destruct p as [p | p |]; try reflexivity; try lia).
Qed.

(** C9: for every non-negative number of milliseconds, [formatTime] returns
    three decimal fields separated by colons.  The minute and second fields
    have exactly two digits and denote the minutes and seconds below sixty;
    the hour field has at least two digits, denotes the whole number of
    hours without any reduction modulo a day, and is printed unpadded once
    it needs two digits or more.  3661000 ms renders as 01:01:01. *)
Theorem formatTime_renders (ms : Z) :
  0 <= ms ->
  (exists hh mm ss,
     formatTime ms = hh +:+ ":" +:+ mm +:+ ":" +:+ ss /\
     (2 <= String.length hh)%nat /\
     String.length mm = 2%nat /\
     String.length ss = 2%nat /\
     decimal_value hh = Some (ms / 3600000) /\
     decimal_value mm = Some (ms / 60000 mod 60) /\
     decimal_value ss = Some (ms / 1000 mod 60) /\
     (10 <= ms / 3600000 -> hh = Number_toString (ms / 3600000))) /\
  formatTime 3661000 = "01:01:01" /\
  formatTime (100 * 3600000) = "100:00:00".
Proof.
  intros Hms. split; [| split; reflexivity].
  assert (Hh : ms / 1000 / 3600 = ms / 3600000)
    by (rewrite Z.div_div by lia; reflexivity).
  assert (Hm : Z.rem (ms / 1000) 3600 / 60 = ms / 60000 mod 60).
  { rewrite Z.rem_mod_nonneg by (try apply Z.div_pos; lia).
    pose proof (Z.div_mod ms 60000). pose proof (Z.mod_pos_bound ms 60000).
    Z.to_euclidean_division_equations. lia. }
  assert (Hs : Z.rem (ms / 1000) 60 = ms / 1000 mod 60)
    by (apply Z.rem_mod_nonneg; try apply Z.div_pos; lia).
  unfold formatTime. cbv zeta. rewrite Hh, Hm, Hs.
  eexists _, _, _. split; [reflexivity |].
  assert (0 <= ms / 3600000) by (apply Z.div_pos; lia).
  assert (0 <= ms / 60000 mod 60 < 60) by (apply Z.mod_pos_bound; lia).
  assert (0 <= ms / 1000 mod 60 < 60) by (apply Z.mod_pos_bound; lia).
  repeat split.
  - rewrite padStart_length. lia.
  - now apply padStart_below_sixty.
  - now apply padStart_below_sixty.
  - now apply decimal_value_padStart.
  - apply decimal_value_padStart. lia.
  - apply decimal_value_padStart. lia.
  - apply padStart_two_digits.
Qed.

Lemma formatTime_renders_witness :
  (exists hh mm ss,
     formatTime 90061000 = hh +:+ ":" +:+ mm +:+ ":" +:+ ss /\
     (2 <= String.length hh)%nat /\
     String.length mm = 2%nat /\
     String.length ss = 2%nat /\
     decimal_value hh = Some (90061000 / 3600000) /\
     decimal_value mm = Some (90061000 / 60000 mod 60) /\
     decimal_value ss = Some (90061000 / 1000 mod 60) /\
     (10 <= 90061000 / 3600000 -> hh = Number_toString (90061000 / 3600000))) /\
  formatTime 3661000 = "01:01:01" /\
  formatTime (100 * 3600000) = "100:00:00".
Proof. apply (formatTime_renders 90061000). lia. Defined.

(** * Further properties *)

(** ** [LocalStorage]: round trips and failures *)

(** X1: with an available store, [LocalStorage.get] after [LocalStorage.set]
    on the same key returns the value just stored, whatever the key held
    before and whatever default is passed; neither call warns. *)
Theorem LocalStorage_get_after_set (w : World) (key : string) (v : Snapshot)
    (d : option Snapshot) :
  available (storage w) = true ->
  exists w',
    LocalStorage.set key v w = (Normal tt, w') /\
    LocalStorage.get key d w' = (Normal (Some v), w') /\
    timer w' = timer w /\
    console w' = console w.
Proof.
  intros Hav. open_world w. cbn in Hav. subst avail.
  eexists. split; [exec; reflexivity |].
  exec. rewrite lookup_insert_eq. repeat split.
Qed.

Lemma LocalStorage_get_after_set_witness :
  exists w',
    LocalStorage.set "timerState" running_snapshot paused_world = (Normal tt, w') /\
    LocalStorage.get "timerState" None w' = (Normal (Some running_snapshot), w') /\
    timer w' = timer paused_world /\
    console w' = console paused_world.
Proof.
  apply (LocalStorage_get_after_set paused_world "timerState" running_snapshot None).
  reflexivity.
Defined.

(** X2: with an available store, [LocalStorage.get] after
    [LocalStorage.remove] returns the default; removing a key that is not
    there changes nothing at all. *)
Theorem LocalStorage_get_after_remove (w : World) (key : string)
    (d : option Snapshot) :
  available (storage w) = true ->
  exists w',
    LocalStorage.remove key w = (Normal tt, w') /\
    LocalStorage.get key d w' = (Normal d, w') /\
    (items (storage w) !! key = None -> w' = w).
Proof.
  intros Hav. open_world w. cbn in Hav. subst avail.
  eexists. split; [exec; reflexivity |].
  exec. rewrite lookup_delete_eq. split; [reflexivity |].
  intros Hnone. now rewrite delete_id.
Qed.

Lemma LocalStorage_get_after_remove_witness :
  exists w',
    LocalStorage.remove "timerState" paused_world = (Normal tt, w') /\
    LocalStorage.get "timerState" (Some running_snapshot) w'
      = (Normal (Some running_snapshot), w') /\
    (items (storage paused_world) !! "timerState" = None -> w' = paused_world).
Proof.
  apply (LocalStorage_get_after_remove paused_world "timerState"
                                       (Some running_snapshot)).
  reflexivity.
Defined.

(** X3: writing or removing one key never changes what [LocalStorage.get]
    returns for another key, whether or not the store is available. *)
Theorem LocalStorage_keys_independent (w : World) (key other : string)
    (v : Snapshot) (d : option Snapshot) :
  key <> other ->
  fst (LocalStorage.get other d (snd (LocalStorage.set key v w)))
    = fst (LocalStorage.get other d w) /\
  fst (LocalStorage.get other d (snd (LocalStorage.remove key w)))
    = fst (LocalStorage.get other d w).
Proof.
  intros Hne. open_world w. destruct avail; exec.
  - rewrite lookup_insert_ne, lookup_delete_ne by assumption.
    destruct (stored !! other) as [[s | |] |]; split; reflexivity.
  - split; reflexivity.
Qed.

Lemma LocalStorage_keys_independent_witness :
  fst (LocalStorage.get "theme" None
         (snd (LocalStorage.set "timerState" running_snapshot paused_world)))
    = fst (LocalStorage.get "theme" None paused_world) /\
  fst (LocalStorage.get "theme" None
         (snd (LocalStorage.remove "timerState" paused_world)))
    = fst (LocalStorage.get "theme" None paused_world).
Proof.
  apply (LocalStorage_keys_independent paused_world "timerState" "theme"
                                       running_snapshot None).
  discriminate.
Defined.

(** X4: when the store is unavailable none of the three operations throws:
    [set] and [remove] leave the world as it was but for one console
    warning, and [get] returns the default with one warning. *)
Theorem LocalStorage_swallows_failures (w : World) (key : string)
    (v : Snapshot) (d : option Snapshot) :
  available (storage w) = false ->
  LocalStorage.set key v w
    = (Normal tt, snd (console_warn "LocalStorage set failed:" w)) /\
  LocalStorage.get key d w
    = (Normal d, snd (console_warn "LocalStorage get failed:" w)) /\
  LocalStorage.remove key w
    = (Normal tt, snd (console_warn "LocalStorage remove failed:" w)).
Proof.
  intros Hav. open_world w. cbn in Hav. subst avail. repeat split.
Qed.

Lemma LocalStorage_swallows_failures_witness :
  let w := new_Timer (mkStorage false ∅) 0 None false in
  LocalStorage.set "timerState" running_snapshot w
    = (Normal tt, snd (console_warn "LocalStorage set failed:" w)) /\
  LocalStorage.get "timerState" None w
    = (Normal None, snd (console_warn "LocalStorage get failed:" w)) /\
  LocalStorage.remove "timerState" w
    = (Normal tt, snd (console_warn "LocalStorage remove failed:" w)).
Proof.
  apply (LocalStorage_swallows_failures
           (new_Timer (mkStorage false ∅) 0 None false)
           "timerState" running_snapshot None).
  reflexivity.
Defined.

(** X5: a stored text that is not empty and does not parse makes
    [LocalStorage.get] return the default with a warning, and is left in
    the store: [get] never repairs or removes it.  An empty stored string
    is not parsed at all: [get] returns the default without a warning and
    changes nothing. *)
Theorem LocalStorage_get_unreadable (w : World) (key : string)
    (d : option Snapshot) :
  available (storage w) = true ->
  (items (storage w) !! key = Some ItemCorrupt ->
   LocalStorage.get key d w
     = (Normal d, snd (console_warn "LocalStorage get failed:" w)) /\
   storage (snd (LocalStorage.get key d w)) = storage w) /\
  (items (storage w) !! key = Some ItemEmpty ->
   LocalStorage.get key d w = (Normal d, w)).
Proof.
  intros Hav. open_world w. cbn in Hav. subst avail.
  split; intros Hit; cbn in Hit; exec; rewrite Hit; repeat split.
Qed.

Lemma LocalStorage_get_unreadable_witness :
  let corrupt := new_Timer (store_with ItemCorrupt) 0 None false in
  let empty := new_Timer (store_with ItemEmpty) 0 None false in
  (LocalStorage.get "timerState" None corrupt
     = (Normal None, snd (console_warn "LocalStorage get failed:" corrupt)) /\
   storage (snd (LocalStorage.get "timerState" None corrupt)) = storage corrupt) /\
  LocalStorage.get "timerState" None empty = (Normal None, empty).
Proof.
  split.
  - apply (LocalStorage_get_unreadable
             (new_Timer (store_with ItemCorrupt) 0 None false) "timerState" None);
      reflexivity.
  - apply (LocalStorage_get_unreadable
             (new_Timer (store_with ItemEmpty) 0 None false) "timerState" None);
      reflexivity.
Defined.

(** ** Persistence of the timer *)

Lemma deliver_available (w : World) now ev :
  available (storage (deliver now ev w)) = available (storage w).
Proof.
  open_world w.
  destruct ev as [id | | | | | h |], running, avail, handle, text, custom;
    exec; try destruct (decide (h ∈ _)); reflexivity.
Qed.

Lemma deliver_snapshot_mirrors (w : World) now ev :
  available (storage w) = true ->
  consistent w ->
  snapshot_mirrors w -> snapshot_mirrors (deliver now ev w).
Proof.
  unfold snapshot_mirrors, consistent. open_world w. cbn.
  intros -> Hcons Hmirror.
  destruct (stored !! "timerState") as [[s | |] |] eqn:Hstored.
  - destruct Hmirror as (Hst & Hrun & Htask & [T ->]).
    destruct ev as [id | | | | | h |], running, handle, text, custom;
      exec; try destruct (decide (h ∈ _));
      rewrite ?lookup_insert_eq, ?lookup_delete_eq, ?Hstored;
      repeat split; eauto.
  - contradiction.
  - contradiction.
  - injection Hmirror as -> -> -> -> ->. destruct Hcons as [-> _].
    destruct ev as [id | | | | | h |], text, custom;
      exec; try destruct (decide (h ∈ _));
      try (match goal with H : _ ∈ ∅ |- _ => exfalso; set_solver end);
      rewrite ?lookup_insert_eq, ?lookup_delete_eq, ?Hstored;
      repeat split; eauto.
Qed.

Lemma reachable_alone_reachable (w : World) :
  reachable_alone w -> reachable w.
Proof. induction 1; now constructor. Qed.

Lemma reachable_alone_mirrors (w : World) :
  reachable_alone w -> available (storage w) = true /\ snapshot_mirrors w.
Proof.
  induction 1 as [st now disp custom Hav Hnone | w now ev Hreach [Hav IH]].
  - split; [exact Hav |]. unfold snapshot_mirrors. cbn. now rewrite Hnone.
  - split; [now rewrite deliver_available |].
    apply deliver_snapshot_mirrors; try assumption.
    now apply reachable_consistent, reachable_alone_reachable.
Qed.

(** X6: while one page alone uses an available store that held no snapshot
    when the timer was constructed, the stored snapshot always mirrors the
    timer: a stored snapshot carries the timer's start time, running flag
    and task, and there is no snapshot exactly when the timer is at its
    idle defaults. *)
Theorem stored_snapshot_mirrors_timer (w : World) :
  reachable_alone w ->
  snapshot_mirrors w /\
  (items (storage w) !! "timerState" = None <-> timer w = idle).
Proof.
  intros Hreach. destruct (reachable_alone_mirrors w Hreach) as [_ Hmirror].
  split; [exact Hmirror |].
  unfold snapshot_mirrors in Hmirror.
  destruct (items (storage w) !! "timerState") as [[s | |] |];
    try contradiction.
  - destruct Hmirror as (_ & _ & _ & [T HT]).
    split; [discriminate |]. intros Hidle. rewrite Hidle in HT. discriminate HT.
  - split; [intros _; exact Hmirror | reflexivity].
Qed.

Lemma stored_snapshot_mirrors_timer_witness :
  snapshot_mirrors paused_world /\
  (items (storage paused_world) !! "timerState" = None
   <-> timer paused_world = idle).
Proof.
  apply (stored_snapshot_mirrors_timer paused_world).
  unfold paused_world. cbn [run].
  apply alone_deliver, alone_deliver, alone_deliver, alone_new; reflexivity.
Defined.

(** X7: a running timer whose start time is a non-zero number is saved at
    one time and the page is loaded again less than 24 hours later.
    [loadState] followed by [resumeTimer] on the new timer bring back the
    start time and the task, set it running with an interval scheduled, and
    make the elapsed time the wall-clock time since the start, not the
    elapsed time that was saved. *)
Theorem saved_timer_comes_back (w : World) (T later : Z)
    (el : option string) (own_onTick : bool) :
  available (storage w) = true ->
  isRunning (timer w) = true ->
  startTime (timer w) = Some T ->
  T <> 0 ->
  later - clock w < 24 * 60 * 60 * 1000 ->
  let saved := storage (snd (saveState w)) in
  let w' := snd ((loadState ;; resumeTimer)
                   (new_Timer saved later el own_onTick)) in
  timer w' = mkTimer (Some T) (later - T) true (Some 1%positive)
                     (taskId (timer w)) /\
  scheduled w' = {[1%positive]}.
Proof.
  intros Hav Hrun Hstart HT Hfresh. open_world w.
  cbn in Hav, Hrun, Hstart, Hfresh. subst avail running start_time.
  exec. rewrite lookup_insert_eq. exec.
  rewrite (proj2 (Z.ltb_lt _ _) Hfresh). exec.
  repeat (rewrite (proj2 (Z.eqb_neq T 0) HT); exec).
  split; [reflexivity | set_solver].
Qed.

Lemma saved_timer_comes_back_witness :
  let w := deliver 1000 (EvStart (Some "T1"))
                   (new_Timer empty_storage 0 None false) in
  let saved := storage (snd (saveState w)) in
  let w' := snd ((loadState ;; resumeTimer) (new_Timer saved 5000 None false)) in
  timer w' = mkTimer (Some 1000) (5000 - 1000) true (Some 1%positive)
                     (taskId (timer w)) /\
  scheduled w' = {[1%positive]}.
Proof.
  apply (saved_timer_comes_back
           (deliver 1000 (EvStart (Some "T1"))
                    (new_Timer empty_storage 0 None false))
           1000 5000 None false);
    try reflexivity.
  discriminate.
Defined.

(** X8: only a running timer survives a reload.  Once a running timer has
    been paused, stopped or reset with an available store, the store offers
    nothing to restore at any later time: [pause] leaves a snapshot marked
    not running, [stop] and [reset] remove it.  [loadState] on a timer
    constructed over that store leaves it idle, so the time accumulated by
    a paused timer is not recovered. *)
Theorem only_running_timer_survives_reload (w : World) (ev : Event)
    (now later : Z) (el : option string) (own_onTick : bool) :
  available (storage w) = true ->
  isRunning (timer w) = true ->
  ev = EvPause \/ ev = EvStop \/ ev = EvReset ->
  let saved := storage (deliver now ev w) in
  nothing_to_restore saved later /\
  timer (snd (loadState (new_Timer saved later el own_onTick))) = idle.
Proof.
  intros Hav Hrun Hev saved.
  assert (Hnothing : nothing_to_restore saved later).
  { subst saved. open_world w. cbn in Hav, Hrun. subst avail running.
    destruct Hev as [-> | [-> | ->]], handle, text, custom.
    all: try (eapply snapshot_not_running;
              [reflexivity | exec; apply lookup_insert_eq | reflexivity]).
    all: apply snapshot_absent; [reflexivity | exec; apply lookup_delete_eq]. }
  split; [exact Hnothing |].
  destruct (loadState_nothing_to_restore (new_Timer saved later el own_onTick))
    as (w' & Hload & Htimer & _); [exact Hnothing |].
  rewrite Hload. exact Htimer.
Qed.

Lemma only_running_timer_survives_reload_witness :
  let w := deliver 1000 (EvStart (Some "T1"))
                   (new_Timer empty_storage 0 None false) in
  let saved := storage (deliver 4500 EvPause w) in
  nothing_to_restore saved 5000 /\
  timer (snd (loadState (new_Timer saved 5000 None false))) = idle.
Proof.
  apply (only_running_timer_survives_reload
           (deliver 1000 (EvStart (Some "T1"))
                    (new_Timer empty_storage 0 None false))
           EvPause 4500 5000 None false);
    [reflexivity | reflexivity | left; reflexivity].
Defined.

(** ** Elapsed time along a run *)

(** X9: time spent paused is not counted.  When a timer that is not running,
    with elapsed time [E], is resumed at time [t], the tick that fires at
    time [t'] computes and reports exactly [E + (t' - t)], however long the
    timer had been paused. *)
Theorem paused_time_is_not_counted (w : World) (t t' : Z) :
  isRunning (timer w) = false ->
  let w1 := deliver t EvResume w in
  let w2 := deliver t' (EvTick (next_handle w)) w1 in
  interval (timer w1) = Some (next_handle w) /\
  elapsedTime (timer w2) = elapsedTime (timer w) + (t' - t) /\
  sink w2 = sink w1 ++ [NTick (elapsedTime (timer w) + (t' - t))].
Proof.
  intros Hrun. open_world w. cbn in Hrun. subst running.
  assert (Harith : t' - (t - elapsed) = elapsed + (t' - t)) by lia.
  destruct avail, text, custom; exec;
    rewrite decide_True by set_solver; cbn; rewrite Harith;
    repeat split.
Qed.

Lemma paused_time_is_not_counted_witness :
  let w1 := deliver 5000 EvResume paused_world in
  let w2 := deliver 7000 (EvTick (next_handle paused_world)) w1 in
  interval (timer w1) = Some (next_handle paused_world) /\
  elapsedTime (timer w2) = elapsedTime (timer paused_world) + (7000 - 5000) /\
  sink w2 = sink w1 ++ [NTick (elapsedTime (timer paused_world) + (7000 - 5000))].
Proof. apply (paused_time_is_not_counted paused_world 5000 7000). reflexivity. Defined.

Lemma chronological_from_reachable (t : Z) (w : World) :
  chronological_from t w -> reachable w.
Proof. induction 1; now constructor. Qed.

Lemma deliver_started_before (t now : Z) (ev : Event) (w : World) :
  consistent w -> started_before t w -> t <= now ->
  started_before now (deliver now ev w).
Proof.
  unfold consistent, started_before. open_world w. cbn.
  intros Hcons [Hpos Hstart] Hle.
  destruct handle as [h |]; destruct Hcons as [-> ->];
    try (destruct (Hstart eq_refl) as (s & -> & Hs)); clear Hstart;
    destruct ev as [id | | | | | h' |]; exec;
    try destruct (decide (h' ∈ _));
    try (match goal with H : _ ∈ ∅ |- _ => exfalso; set_solver end);
    destruct avail, text, custom; cbn;
    (split; [lia |]); intros Hrun; try discriminate;
    eexists; (split; [reflexivity | lia]).
Qed.

Lemma elapsed_never_negative_aux (t : Z) (w : World) :
  chronological_from t w -> started_before t w.
Proof.
  induction 1 as [st now disp custom | t w now ev Hchron IH Hle | t w st _ IH].
  - split; [cbn; lia | intros Hrun; discriminate Hrun].
  - apply (deliver_started_before t); try assumption.
    eapply reachable_consistent, chronological_from_reachable; eassumption.
  - exact IH.
Qed.

(** X10: in a run whose clock never goes back, the elapsed time is never
    negative, and a running timer's start time plus its elapsed time never
    exceeds the current time: the timer never shows more than the time
    that has passed since it was started. *)
Theorem elapsed_never_negative (t : Z) (w : World) :
  chronological_from t w ->
  0 <= elapsedTime (timer w) /\
  (isRunning (timer w) = true ->
   exists s, startTime (timer w) = Some s /\ s + elapsedTime (timer w) <= t).
Proof. exact (elapsed_never_negative_aux t w). Qed.

Lemma paused_world_chronological : chronological_from 4500 paused_world.
Proof.
  unfold paused_world. cbn [run].
  apply (chrono_deliver 4000); [| lia].
  apply (chrono_deliver 1000); [| lia].
  apply (chrono_deliver 0); [| lia].
  apply chrono_new.
Qed.

Lemma elapsed_never_negative_witness :
  0 <= elapsedTime (timer paused_world) /\
  (isRunning (timer paused_world) = true ->
   exists s, startTime (timer paused_world) = Some s /\
             s + elapsedTime (timer paused_world) <= 4500).
Proof.
  apply (elapsed_never_negative 4500 paused_world).
  unfold paused_world. cbn [run].
  apply (chrono_deliver 4000); [| lia].
  apply (chrono_deliver 1000); [| lia].
  apply (chrono_deliver 0); [| lia].
  apply chrono_new.
Defined.

(** X11: in a run whose clock never goes back, no event other than [stop]
    and [reset] lowers the elapsed time: ticks and visibility refreshes
    only raise it, and [start], [pause] and [resume] keep it. *)
Theorem elapsed_never_decreases (t now : Z) (w : World) (ev : Event) :
  chronological_from t w ->
  t <= now ->
  keeps_elapsed ev = true ->
  elapsedTime (timer w) <= elapsedTime (timer (deliver now ev w)).
Proof.
  intros Hchron Hle Hkeep.
  pose proof (elapsed_never_negative_aux t w Hchron) as Hbefore.
  pose proof (reachable_consistent w (chronological_from_reachable t w Hchron))
    as Hcons.
  revert Hcons Hbefore. unfold consistent, started_before. open_world w. cbn.
  intros Hcons [Hpos Hstart].
  destruct handle as [h |]; destruct Hcons as [-> ->];
    try (destruct (Hstart eq_refl) as (s & -> & Hs)); clear Hstart;
    destruct ev as [id | | | | | h' |]; try discriminate Hkeep; exec;
    try destruct (decide (h' ∈ _));
    try (match goal with H : _ ∈ ∅ |- _ => exfalso; set_solver end);
    destruct avail, text, custom; cbn; lia.
Qed.

Lemma elapsed_never_decreases_witness :
  elapsedTime (timer paused_world)
  <= elapsedTime (timer (deliver 5000 EvResume paused_world)).
Proof.
  apply (elapsed_never_decreases 4500 5000 paused_world EvResume).
  - exact paused_world_chronological.
  - lia.
  - reflexivity.
Defined.

(** X12: while the timer is not running its elapsed time is frozen: in a
    reachable state with [isRunning = false], no event but [reset] changes
    it.  Ticks do not fire, a visibility refresh and rejected calls do
    nothing, and [start] and [resume] carry it over unchanged. *)
Theorem elapsed_frozen_while_not_running (w : World) (now : Z) (ev : Event) :
  reachable w ->
  isRunning (timer w) = false ->
  ev <> EvReset ->
  elapsedTime (timer (deliver now ev w)) = elapsedTime (timer w).
Proof.
  intros Hreach Hrun Hev.
  pose proof (reachable_consistent w Hreach) as Hcons.
  revert Hcons Hrun. unfold consistent. open_world w. cbn.
  intros Hcons ->.
  destruct handle as [h |]; destruct Hcons as [-> Hrun]; try discriminate.
  destruct ev as [id | | | | | h' |]; try congruence; exec;
    try destruct (decide (h' ∈ _));
    try (match goal with H : _ ∈ ∅ |- _ => exfalso; set_solver end);
    destruct avail; reflexivity.
Qed.

Lemma elapsed_frozen_while_not_running_witness :
  elapsedTime (timer (deliver 9000 (EvStart (Some "T2")) paused_world))
  = elapsedTime (timer paused_world).
Proof.
  apply (elapsed_frozen_while_not_running paused_world 9000 (EvStart (Some "T2"))).
  - unfold paused_world. cbn [run].
    apply reach_deliver, reach_deliver, reach_deliver, reach_new.
  - reflexivity.
  - discriminate.
Defined.

(** ** The display *)

Lemma deliver_display_current (txt0 : string) (w : World) now ev :
  display_current txt0 w -> display_current txt0 (deliver now ev w).
Proof.
  unfold display_current. open_world w. cbn.
  intros [-> Hshown].
  destruct Hshown as [[-> ->] | ->];
    destruct ev as [id | | | | | h |], running, avail, handle;
    exec; try destruct (decide (h ∈ _)); cbn; auto.
Qed.

(** X13: with the default tick handler and a display element, the display
    never lags behind the timer.  In every state reached from the
    constructed timer the element shows the rendering of the current
    elapsed time, or still shows its initial text while the elapsed time
    is zero. *)
Theorem display_shows_elapsed (st : Storage) (t0 : Z) (txt0 : string)
    (w : World) :
  reachable_from (new_Timer st t0 (Some txt0) false) w ->
  display w = Some txt0 /\ elapsedTime (timer w) = 0 \/
  display w = Some (formatTime (elapsedTime (timer w))).
Proof.
  intros Hreach.
  assert (Hcurrent : display_current txt0 w).
  { induction Hreach as [| w now ev _ IH | w st' _ IH].
    - split; [reflexivity | left; split; reflexivity].
    - now apply deliver_display_current.
    - exact IH. }
  apply Hcurrent.
Qed.

Lemma display_shows_elapsed_witness :
  let w := run [(1000, EvStart (Some "T1")); (4000, EvTick 1); (4500, EvPause)]
               (new_Timer empty_storage 0 (Some "--:--:--") false) in
  display w = Some "--:--:--" /\ elapsedTime (timer w) = 0 \/
  display w = Some (formatTime (elapsedTime (timer w))).
Proof.
  apply (display_shows_elapsed empty_storage 0 "--:--:--").
  cbn [run]. apply from_deliver, from_deliver, from_deliver, from_here.
Defined.

(** ** [resumeTimer] *)

Lemma deliver_handle_below_next (w : World) now ev :
  (forall h, interval (timer w) = Some h -> (h < next_handle w)%positive) ->
  forall h, interval (timer (deliver now ev w)) = Some h ->
            (h < next_handle (deliver now ev w))%positive.
Proof.
  open_world w. cbn. intros Hbelow.
  destruct ev as [id | | | | | h' |], running, avail, text, custom;
    exec; try destruct (decide (h' ∈ _));
    try destruct handle as [h0 |]; cbn;
    intros h Hh; try discriminate;
    try (injection Hh as <-); try lia;
    try (specialize (Hbelow _ eq_refl)); try (apply Hbelow in Hh); lia.
Qed.

Lemma reachable_handle_below_next (w : World) :
  reachable w ->
  forall h, interval (timer w) = Some h -> (h < next_handle w)%positive.
Proof.
  induction 1 as [st now disp custom | w now ev _ IH | w st _ IH].
  - intros h Hh. discriminate Hh.
  - now apply deliver_handle_below_next.
  - exact IH.
Qed.

(** X14: [resumeTimer] never cancels an interval the timer already holds.
    Called on a running timer, it schedules a second interval and forgets
    the first handle; a later [pause] cancels only the new one, so the old
    interval keeps firing and overwrites the elapsed time of a timer that
    is not running. *)
Theorem resumeTimer_leaks_held_interval (w : World) (h : positive)
    (T t t' : Z) :
  reachable w ->
  isRunning (timer w) = true ->
  interval (timer w) = Some h ->
  startTime (timer w) = Some T ->
  T <> 0 ->
  let w1 := snd (resumeTimer w) in
  let w2 := deliver t EvPause w1 in
  let w3 := deliver t' (EvTick h) w2 in
  scheduled w1 = {[next_handle w; h]} /\
  isRunning (timer w2) = false /\
  scheduled w2 = {[h]} /\
  isRunning (timer w3) = false /\
  elapsedTime (timer w3) = t' - T.
Proof.
  intros Hreach Hrun Hheld Hstart HT.
  pose proof (reachable_handle_below_next w Hreach h Hheld) as Hbelow.
  pose proof (reachable_consistent w Hreach) as Hcons.
  revert Hcons Hrun Hheld Hstart Hbelow. unfold consistent. open_world w. cbn.
  intros Hcons -> -> -> Hbelow. destruct Hcons as [-> _].
  assert (Hne : fresh_handle <> h) by lia.
  exec. repeat (rewrite (proj2 (Z.eqb_neq T 0) HT); exec).
  destruct avail; exec;
    (rewrite decide_True by set_solver);
    destruct text, custom; cbn; repeat split; set_solver.
Qed.

Lemma resumeTimer_leaks_held_interval_witness :
  let w := deliver 1000 (EvStart (Some "T1"))
                   (new_Timer empty_storage 0 None false) in
  let w1 := snd (resumeTimer w) in
  let w2 := deliver 4500 EvPause w1 in
  let w3 := deliver 5000 (EvTick 1) w2 in
  scheduled w1 = {[next_handle w; 1%positive]} /\
  isRunning (timer w2) = false /\
  scheduled w2 = {[1%positive]} /\
  isRunning (timer w3) = false /\
  elapsedTime (timer w3) = 5000 - 1000.
Proof.
  apply (resumeTimer_leaks_held_interval
           (deliver 1000 (EvStart (Some "T1"))
                    (new_Timer empty_storage 0 None false))
           1%positive 1000 4500 5000).
  - apply reach_deliver, reach_new.
  - reflexivity.
  - reflexivity.
  - reflexivity.
  - discriminate.
Defined.

(** ** Digit strings *)

Lemma append_empty (r : string) : "" +:+ r = r.
Proof. reflexivity. Qed.

Lemma append_String (c : ascii) (s r : string) :
  String c s +:+ r = String c (s +:+ r).
Proof. reflexivity. Qed.

Lemma all_digits_string_of_uint (u : Decimal.uint) :
  all_digits (NilEmpty.string_of_uint u) = true.
Proof. induction u; cbn [NilEmpty.string_of_uint all_digits is_digit andb]; auto. Qed.

Lemma all_digits_append (s1 s2 : string) :
  all_digits s1 = true -> all_digits s2 = true ->
  all_digits (s1 +:+ s2) = true.
Proof.
  induction s1 as [| c s1 IH]; rewrite ?append_empty, ?append_String;
    cbn [all_digits]; [auto |].
  intros Hc Hs2. apply andb_prop in Hc as [Hc Hs1].
  apply andb_true_intro. auto.
Qed.

Lemma all_digits_filler (k : nat) :
  all_digits (string_of_list_ascii (repeat "0"%char k)) = true.
Proof. induction k; cbn [repeat string_of_list_ascii all_digits is_digit andb]; auto. Qed.

Lemma all_digits_Number_toString (z : Z) :
  0 <= z -> all_digits (Number_toString z) = true.
Proof.
  intros Hz. destruct (Number_toString_nonneg z Hz) as (u & -> & _).
  apply all_digits_string_of_uint.
Qed.

Lemma all_digits_padStart (z : Z) :
  0 <= z -> all_digits (padStart 2 "0" (Number_toString z)) = true.
Proof.
  intros Hz. unfold padStart.
  destruct (2 <=? String.length (Number_toString z))%nat.
  - now apply all_digits_Number_toString.
  - apply all_digits_append;
      [apply all_digits_filler | now apply all_digits_Number_toString].
Qed.

(** Two strings that start with digits and go on with something else agree
    on the digits and on the rest. *)
Lemma split_after_digits (d1 d2 r1 r2 : string) :
  all_digits d1 = true -> all_digits d2 = true ->
  no_leading_digit r1 -> no_leading_digit r2 ->
  d1 +:+ r1 = d2 +:+ r2 -> d1 = d2 /\ r1 = r2.
Proof.
  revert d2. induction d1 as [| c1 d1 IH]; intros [| c2 d2];
    intros H1 H2 Hr1 Hr2 Heq;
    rewrite ?append_empty, ?append_String in Heq;
    cbn [all_digits] in H1, H2.
  - split; [reflexivity | exact Heq].
  - subst r1. cbn in Hr1. apply andb_prop in H2 as [Hc _]. congruence.
  - subst r2. cbn in Hr2. apply andb_prop in H1 as [Hc _]. congruence.
  - injection Heq as -> Heq.
    apply andb_prop in H1 as [_ H1]. apply andb_prop in H2 as [_ H2].
    destruct (IH d2 H1 H2 Hr1 Hr2 Heq) as [-> ->]. split; reflexivity.
Qed.

Lemma Number_toString_inj (a b : Z) :
  0 <= a -> 0 <= b -> Number_toString a = Number_toString b -> a = b.
Proof.
  intros Ha Hb Heq.
  destruct (Number_toString_nonneg a Ha) as (ua & Hsa & <- & _).
  destruct (Number_toString_nonneg b Hb) as (ub & Hsb & <- & _).
  rewrite Hsa, Hsb in Heq.
  apply (f_equal NilEmpty.uint_of_string) in Heq.
  rewrite !NilEmpty.usu in Heq. now injection Heq as ->.
Qed.

Lemma padStart_inj (a b : Z) :
  0 <= a -> 0 <= b ->
  padStart 2 "0" (Number_toString a) = padStart 2 "0" (Number_toString b) ->
  a = b.
Proof.
  intros Ha Hb Heq. apply (f_equal decimal_value) in Heq.
  rewrite !decimal_value_padStart in Heq by assumption.
  now injection Heq.
Qed.

(** ** main.js [formatTime] and [Timer.formatTime] *)

Lemma colon_not_digit (s : string) : no_leading_digit (":" +:+ s).
Proof. reflexivity. Qed.

Lemma colon_cancel (x y : string) : ":" +:+ x = ":" +:+ y -> x = y.
Proof.
  rewrite !append_String, !append_empty. intros Heq. now injection Heq.
Qed.

(** Equal renderings have equal hour, minute and second fields. *)
Lemma Main_formatTime_fields (a b : Z) :
  0 <= a -> 0 <= b -> Main.formatTime a = Main.formatTime b ->
  a / 3600 = b / 3600 /\
  Z.rem a 3600 / 60 = Z.rem b 3600 / 60 /\
  Z.rem a 60 = Z.rem b 60.
Proof.
  intros Ha Hb. unfold Main.formatTime. cbv zeta.
  assert (Hha : 0 <= a / 3600) by (apply Z.div_pos; lia).
  assert (Hhb : 0 <= b / 3600) by (apply Z.div_pos; lia).
  assert (Hma : 0 <= Z.rem a 3600 / 60)
    by (apply Z.div_pos; [apply Z.rem_nonneg |]; lia).
  assert (Hmb : 0 <= Z.rem b 3600 / 60)
    by (apply Z.div_pos; [apply Z.rem_nonneg |]; lia).
  assert (Hsa : 0 <= Z.rem a 60) by (apply Z.rem_nonneg; lia).
  assert (Hsb : 0 <= Z.rem b 60) by (apply Z.rem_nonneg; lia).
  intros Heq.
  apply split_after_digits in Heq as [Hh Heq];
    auto using all_digits_padStart, colon_not_digit.
  apply colon_cancel in Heq.
  apply split_after_digits in Heq as [Hm Hs];
    auto using all_digits_padStart, colon_not_digit.
  apply colon_cancel in Hs.
  apply padStart_inj in Hh, Hm, Hs; auto.
Qed.

(** X15: on non-negative whole seconds the HH:MM:SS rendering of main.js
    is unambiguous: two different durations never render the same. *)
Theorem Main_formatTime_injective (a b : Z) :
  0 <= a -> 0 <= b -> Main.formatTime a = Main.formatTime b -> a = b.
Proof.
  intros Ha Hb Heq.
  destruct (Main_formatTime_fields a b Ha Hb Heq) as (Hh & Hm & Hs).
  revert Hh Hm Hs. Z.to_euclidean_division_equations. lia.
Qed.

Lemma Main_formatTime_injective_witness :
  Main.formatTime 3661 = Main.formatTime (3600 + 61) /\ 3661 = 3600 + 61.
Proof.
  split; [reflexivity |].
  apply (Main_formatTime_injective 3661 (3600 + 61)); [lia | lia | reflexivity].
Defined.

(** [Timer.formatTime] renders the whole seconds of its argument the way
    main.js does. *)
Lemma formatTime_of_seconds (ms : Z) :
  formatTime ms = Main.formatTime (ms / 1000).
Proof. reflexivity. Qed.

(** X16: two timers with non-negative elapsed times show the same text
    exactly when [getElapsedSeconds] returns the same number for both: the
    display is exact to the second and blind below it. *)
Theorem same_display_iff_same_second (w1 w2 : World) :
  0 <= elapsedTime (timer w1) ->
  0 <= elapsedTime (timer w2) ->
  formatTime (elapsedTime (timer w1)) = formatTime (elapsedTime (timer w2))
  <-> fst (getElapsedSeconds w1) = fst (getElapsedSeconds w2).
Proof.
  intros H1 H2. rewrite !formatTime_of_seconds.
  assert (Hsec : forall w, fst (getElapsedSeconds w)
                           = Normal (elapsedTime (timer w) / 1000))
    by (intros w; open_world w; reflexivity).
  rewrite !Hsec. split.
  - intros Heq. f_equal.
    assert (Hs1 : 0 <= elapsedTime (timer w1) / 1000) by (apply Z.div_pos; lia).
    assert (Hs2 : 0 <= elapsedTime (timer w2) / 1000) by (apply Z.div_pos; lia).
    destruct (Main_formatTime_fields _ _ Hs1 Hs2 Heq) as (Hh & Hm & Hs).
    revert Hh Hm Hs. Z.to_euclidean_division_equations. lia.
  - intros [= ->]. reflexivity.
Qed.

Lemma same_display_iff_same_second_witness :
  let w1 := paused_world in
  let w2 := deliver 5000 EvResume paused_world in
  formatTime (elapsedTime (timer w1)) = formatTime (elapsedTime (timer w2))
  <-> fst (getElapsedSeconds w1) = fst (getElapsedSeconds w2).
Proof.
  apply (same_display_iff_same_second paused_world
           (deliver 5000 EvResume paused_world));
    vm_compute; discriminate.
Defined.

(** X17: a negative number of milliseconds renders with a minus sign in
    front: [formatTime] does not clamp its argument, so a start time that
    lies in the future would show as a negative clock. *)
Theorem formatTime_negative (ms : Z) :
  ms < 0 -> exists rest, formatTime ms = String "-" rest.
Proof.
  intros Hms. unfold formatTime. cbv zeta.
  assert (Hh : ms / 1000 / 3600 < 0).
  { Z.to_euclidean_division_equations. lia. }
  destruct (ms / 1000 / 3600) as [| p | p] eqn:Hhours; try lia.
  unfold Number_toString at 1. cbn [Z.to_int NilEmpty.string_of_int].
  unfold padStart at 1.
  change (String.length (String "-" (NilEmpty.string_of_uint (Pos.to_uint p))))
    with (S (String.length (NilEmpty.string_of_uint (Pos.to_uint p)))).
  rewrite length_string_of_uint.
  pose proof (DecimalPos.Unsigned.to_uint_nonnil p) as Hnil.
  destruct (Pos.to_uint p) as [| u | u | u | u | u | u | u | u | u | u] eqn:Hu;
    [congruence | ..]; cbn [Decimal.nb_digits Nat.leb];
    rewrite append_String; eexists; reflexivity.
Qed.

Lemma formatTime_negative_witness :
  exists rest, formatTime (-1) = String "-" rest.
Proof. apply (formatTime_negative (-1)). lia. Defined.

(** ** main.js [formatDuration] *)

Lemma formatDuration_seconds (a : Z) :
  0 < a < 60 ->
  Main.formatDuration (Some a) = Number_toString a +:+ "s".
Proof.
  intros Ha. unfold Main.formatDuration.
  replace (a =? 0) with false by lia. replace (a <? 0) with false by lia.
  cbv zeta. rewrite !Z.rem_mod_nonneg by lia.
  replace (a / 3600) with 0 by (Z.to_euclidean_division_equations; lia).
  replace (a mod 3600 / 60) with 0 by (Z.to_euclidean_division_equations; lia).
  replace (a mod 60) with a by (Z.to_euclidean_division_equations; lia).
  reflexivity.
Qed.

Lemma formatDuration_minutes (a : Z) :
  60 <= a < 3600 ->
  Main.formatDuration (Some a)
  = Number_toString (a / 60) +:+ "m " +:+ Number_toString (a mod 60) +:+ "s".
Proof.
  intros Ha. unfold Main.formatDuration.
  replace (a =? 0) with false by lia. replace (a <? 0) with false by lia.
  cbv zeta. rewrite !Z.rem_mod_nonneg by lia.
  replace (a / 3600) with 0 by (Z.to_euclidean_division_equations; lia).
  replace (a mod 3600 / 60) with (a / 60)
    by (Z.to_euclidean_division_equations; lia).
  replace (0 <? a / 60) with true
    by (symmetry; apply Z.ltb_lt; Z.to_euclidean_division_equations; lia).
  reflexivity.
Qed.

Lemma formatDuration_hours (a : Z) :
  3600 <= a ->
  Main.formatDuration (Some a)
  = Number_toString (a / 60 / 60) +:+ "h " +:+
    Number_toString (a / 60 mod 60) +:+ "m".
Proof.
  intros Ha. unfold Main.formatDuration.
  replace (a =? 0) with false by lia. replace (a <? 0) with false by lia.
  cbv zeta. rewrite !Z.rem_mod_nonneg by lia.
  replace (a / 3600) with (a / 60 / 60)
    by (Z.to_euclidean_division_equations; lia).
  replace (a mod 3600 / 60) with (a / 60 mod 60)
    by (Z.to_euclidean_division_equations; lia).
  replace (0 <? a / 60 / 60) with true
    by (symmetry; apply Z.ltb_lt; Z.to_euclidean_division_equations; lia).
  reflexivity.
Qed.

Lemma unit_not_digit (c : ascii) (s : string) :
  is_digit c = false -> no_leading_digit (String c s).
Proof. intros Hc. exact Hc. Qed.

(** X18: [formatDuration] renders "0m" exactly for a missing, zero or
    negative number of seconds; no positive duration renders as "0m". *)
Theorem formatDuration_zero_iff_nothing (x : option Z) :
  Main.formatDuration x = "0m"
  <-> x = None \/ exists s, x = Some s /\ s <= 0.
Proof.
  split.
  - destruct x as [a |]; [| now left]. intros Heq. right. exists a.
    split; [reflexivity |].
    destruct (Z.le_gt_cases a 0) as [Hle | Hpos]; [exact Hle | exfalso].
    assert (Hzero : "0m" = Number_toString 0 +:+ "m") by reflexivity.
    rewrite Hzero in Heq.
    destruct (Z.lt_ge_cases a 60) as [Hsec | Hmin];
      [rewrite formatDuration_seconds in Heq by lia
      | destruct (Z.lt_ge_cases a 3600) as [Hmin' | Hhour];
        [rewrite formatDuration_minutes in Heq by lia
        | rewrite formatDuration_hours in Heq by lia]];
      apply split_after_digits in Heq as [_ Hrest];
      try discriminate Hrest;
      try (apply all_digits_Number_toString;
           Z.to_euclidean_division_equations; lia);
      try (now apply unit_not_digit).
  - intros [-> | (s & -> & Hs)]; [reflexivity |].
    unfold Main.formatDuration.
    destruct (Z.eqb_spec s 0) as [-> | Hne]; [reflexivity |].
    replace (s <? 0) with true by lia. reflexivity.
Qed.

Lemma append_cancel (p x y : string) : p +:+ x = p +:+ y -> x = y.
Proof.
  induction p as [| c p IH]; rewrite ?append_empty, ?append_String;
    [auto | intros Heq; injection Heq as Heq; auto].
Qed.

(** X19: from one hour on, [formatDuration] shows hours and minutes only:
    two durations of an hour or more render the same exactly when they fall
    in the same minute, so up to 59 seconds are not shown. *)
Theorem formatDuration_hours_to_the_minute (a b : Z) :
  3600 <= a -> 3600 <= b ->
  Main.formatDuration (Some a) = Main.formatDuration (Some b)
  <-> a / 60 = b / 60.
Proof.
  intros Ha Hb. rewrite !formatDuration_hours by assumption. split.
  - intros Heq.
    apply split_after_digits in Heq as [Hh Heq];
      try (apply all_digits_Number_toString;
           Z.to_euclidean_division_equations; lia);
      try (now apply unit_not_digit).
    apply (append_cancel "h ") in Heq.
    apply split_after_digits in Heq as [Hm _];
      try (apply all_digits_Number_toString;
           Z.to_euclidean_division_equations; lia);
      try (now apply unit_not_digit).
    apply Number_toString_inj in Hh, Hm;
      Z.to_euclidean_division_equations; lia.
  - intros ->. reflexivity.
Qed.

Lemma formatDuration_hours_to_the_minute_witness :
  Main.formatDuration (Some 3600) = Main.formatDuration (Some 3659)
  <-> 3600 / 60 = 3659 / 60.
Proof. apply (formatDuration_hours_to_the_minute 3600 3659); lia. Defined.

(** X20: below one hour [formatDuration] is exact to the second: two
    different positive durations under an hour never render the same. *)
Theorem formatDuration_injective_below_hour (a b : Z) :
  0 < a < 3600 -> 0 < b < 3600 ->
  Main.formatDuration (Some a) = Main.formatDuration (Some b) -> a = b.
Proof.
  intros Ha Hb.
  destruct (Z.lt_ge_cases a 60) as [Hsa | Hma];
    destruct (Z.lt_ge_cases b 60) as [Hsb | Hmb];
    rewrite ?(formatDuration_seconds a), ?(formatDuration_minutes a),
            ?(formatDuration_seconds b), ?(formatDuration_minutes b) by lia;
    intros Heq;
    apply split_after_digits in Heq as [Hd Heq];
    try (apply all_digits_Number_toString;
         Z.to_euclidean_division_equations; lia);
    try (now apply unit_not_digit);
    try discriminate Heq.
  - apply Number_toString_inj in Hd; lia.
  - apply (append_cancel "m ") in Heq.
    apply split_after_digits in Heq as [Hs _];
      try (apply all_digits_Number_toString;
           Z.to_euclidean_division_equations; lia);
      try (now apply unit_not_digit).
    apply Number_toString_inj in Hd, Hs;
      Z.to_euclidean_division_equations; lia.
Qed.

Lemma formatDuration_injective_below_hour_witness :
  Main.formatDuration (Some 75) = Main.formatDuration (Some (60 + 15)) /\
  75 = 60 + 15.
Proof.
  split; [reflexivity |].
  apply (formatDuration_injective_below_hour 75 (60 + 15));
    [lia | lia | reflexivity].
Defined.

(** ** main.js [debounce] *)

Section DebounceFacts.

Variable A : Type.
Variable wait : Z.

Local Abbreviation history := (list (Z * DebounceEvent A)).

Lemma debounce_run_snoc (evs : history) (e : Z * DebounceEvent A) :
  debounce_run A wait (evs ++ [e])
  = debounce_step A wait (debounce_run A wait evs) e.
Proof. unfold debounce_run. now rewrite fold_left_app. Qed.

Lemma last_call_snoc (evs : history) (e : Z * DebounceEvent A) :
  last_call A (evs ++ [e])
  = match e with
    | (now, DCall args) => Some (now, args)
    | _ => last_call A evs
    end.
Proof. unfold last_call. rewrite fold_left_app. now destruct e as [now [a | h]]. Qed.

Lemma calls_in_snoc (evs : history) (e : Z * DebounceEvent A) :
  calls_in A (evs ++ [e])
  = match e with
    | (_, DCall _) => S (calls_in A evs)
    | _ => calls_in A evs
    end.
Proof. unfold calls_in. rewrite fold_left_app. now destruct e as [now [a | h]]. Qed.

Lemma debounce_inv_holds (evs : history) :
  debounce_inv A wait evs (debounce_run A wait evs).
Proof.
  induction evs as [| [now [a | h]] evs IH] using rev_ind.
  - split; [left; reflexivity | cbn; rewrite map_size_empty; lia].
  - rewrite debounce_run_snoc. destruct IH as [Hpending Hcount].
    destruct (debounce_run A wait evs) as [tm pend next inv]. cbn in *.
    assert (Hcleared : pending (clearTimeout A tm (mkDebounced A tm pend next inv)) = ∅).
    { destruct Hpending as [-> | (h & t & a0 & -> & -> & _)].
      - destruct tm; cbn; [apply delete_empty | reflexivity].
      - cbn. apply delete_singleton_eq. }
    unfold debounce_step, executedFunction, setTimeout.
    destruct tm as [h0 |]; cbn in Hcleared |- *; rewrite Hcleared;
      unfold debounce_inv; cbn [pending invoked timeout];
      (split;
       [right; exists next, now, a;
        rewrite insert_empty, last_call_snoc; repeat split
       | rewrite calls_in_snoc, insert_empty, map_size_singleton;
         destruct Hpending as [-> | (h & t & a0 & _ & -> & _)];
         rewrite ?map_size_empty, ?map_size_singleton in Hcount; lia]).
  - rewrite debounce_run_snoc. destruct IH as [Hpending Hcount].
    destruct (debounce_run A wait evs) as [tm pend next inv]. cbn in *.
    unfold debounce_inv, debounce_step, fire. cbn.
    destruct Hpending as [-> | (h0 & t & a0 & -> & -> & Hlast)].
    + rewrite lookup_empty. cbn. split; [now left |].
      now rewrite calls_in_snoc.
    + destruct (decide (h0 = h)) as [-> | Hne].
      * rewrite lookup_singleton_eq.
        destruct (t + Z.max 0 wait <=? now); cbn.
        -- rewrite delete_singleton_eq, delete_empty.
           split; [now left |].
           rewrite calls_in_snoc, length_app, map_size_empty. cbn.
           rewrite map_size_singleton in Hcount. lia.
        -- split; [| now rewrite calls_in_snoc].
           right. exists h, t, a0. now rewrite last_call_snoc.
      * rewrite lookup_singleton_ne by assumption. cbn.
        split; [| now rewrite calls_in_snoc].
        right. exists h0, t, a0. now rewrite last_call_snoc.
Qed.

(** X21: a debounced function never holds more than one timeout, and
    [func] never runs more often than the debounced function was called:
    the calls of [func] made so far plus the timeout still pending do not
    exceed the number of calls. *)
Theorem debounce_at_most_one_pending (evs : history) :
  let d := debounce_run A wait evs in
  (size (pending d) <= 1)%nat /\
  (length (invoked d) + size (pending d) <= calls_in A evs)%nat.
Proof.
  destruct (debounce_inv_holds evs) as [Hpending Hcount].
  split; [| exact Hcount].
  destruct Hpending as [-> | (h & t & a & _ & -> & _)].
  - rewrite map_size_empty. lia.
  - rewrite map_size_singleton. lia.
Qed.

(** X22: only the most recent call gets through, and not before the wait
    is over.  When the browser runs a timeout after any history, either
    nothing happens, or [func] is invoked once with the arguments of the
    last call, at least [wait] milliseconds after that call, and no
    timeout is left pending. *)
Theorem debounce_runs_last_call_only (evs : history) (now : Z) (h : positive) :
  let d := debounce_run A wait evs in
  let d' := fire A now h d in
  d' = d \/
  exists t a,
    last_call A evs = Some (t, a) /\
    t + Z.max 0 wait <= now /\
    invoked d' = invoked d ++ [a] /\
    pending d' = ∅.
Proof.
  destruct (debounce_inv_holds evs) as [Hpending _].
  destruct (debounce_run A wait evs) as [tm pend next inv]. cbn in *.
  unfold fire. cbn.
  destruct Hpending as [-> | (h0 & t & a0 & -> & -> & Hlast)].
  - rewrite lookup_empty. now left.
  - destruct (decide (h0 = h)) as [-> | Hne].
    + rewrite lookup_singleton_eq.
      destruct (Z.leb_spec (t + Z.max 0 wait) now) as [Hdue | Hearly];
        [| now left].
      right. exists t, a0. cbn.
      rewrite delete_singleton_eq, delete_empty. repeat split; assumption.
    + rewrite lookup_singleton_ne by assumption. now left.
Qed.

(** X23: every call re-arms the debounced function.  After a call at time
    [t], whatever was pending is gone and the single pending timeout is due
    at [t + wait] with that call's arguments; run when due, it invokes
    [func] exactly once with them. *)
Theorem debounce_call_rearms (evs : history) (t : Z) (a : A) (now : Z) :
  t + Z.max 0 wait <= now ->
  let d := debounce_run A wait evs in
  let d1 := executedFunction A wait t a d in
  let d2 := fire A now (next_timeout d) d1 in
  invoked d1 = invoked d /\
  timeout d1 = Some (next_timeout d) /\
  pending d1 = {[next_timeout d := (t + Z.max 0 wait, a)]} /\
  invoked d2 = invoked d ++ [a] /\
  pending d2 = ∅.
Proof.
  intros Hdue.
  destruct (debounce_inv_holds evs) as [Hpending _].
  destruct (debounce_run A wait evs) as [tm pend next inv]. cbn in *.
  assert (Hcleared : pending (clearTimeout A tm (mkDebounced A tm pend next inv)) = ∅).
  { destruct Hpending as [-> | (h & t0 & a0 & -> & -> & _)].
    - destruct tm; cbn; [apply delete_empty | reflexivity].
    - cbn. apply delete_singleton_eq. }
  unfold executedFunction, setTimeout, fire.
  destruct tm as [h0 |]; cbn in Hcleared |- *; rewrite Hcleared, insert_empty;
    rewrite lookup_singleton_eq;
    destruct (Z.leb_spec (t + Z.max 0 wait) now) as [_ | Hearly]; try lia;
    cbn; rewrite delete_singleton_eq, delete_empty; repeat split.
Qed.

End DebounceFacts.

Lemma debounce_call_rearms_witness :
  let d := debounce_run string 300 [(0, DCall "a"); (100, DCall "ab")] in
  let d1 := executedFunction string 300 200 "abc" d in
  let d2 := fire string 500 (next_timeout d) d1 in
  invoked d1 = invoked d /\
  timeout d1 = Some (next_timeout d) /\
  pending d1 = {[next_timeout d := (200 + Z.max 0 300, "abc")]} /\
  invoked d2 = invoked d ++ ["abc"] /\
  pending d2 = ∅.
Proof.
  apply (debounce_call_rearms string 300 [(0, DCall "a"); (100, DCall "ab")]
                              200 "abc" 500).
  lia.
Defined.

(** Three keystrokes 100 ms apart with a wait of 300 ms: the timeouts of
    the first two never run, and the third runs once when it is due. *)
Example debounce_burst :
  invoked (debounce_run string 300
             [(0, DCall "a"); (100, DCall "ab"); (200, DCall "abc");
              (300, DFire 1); (400, DFire 2); (499, DFire 3); (500, DFire 3);
              (600, DFire 3)])
  = ["abc"].
Proof. vm_compute. reflexivity. Qed.

(** ** main.js [validateField] and the field listeners *)

(** X24: after [validateField] the field carries exactly one of the two
    marks, the one that matches its validity, whatever marks it carried
    before; every other class is untouched and the validity is returned. *)
Theorem validateField_marks (field : Field) :
  let (result, field') := validateField field in
  result = validity field /\
  ("is-valid" ∈ classList field' <-> validity field = true) /\
  ("is-invalid" ∈ classList field' <-> validity field = false) /\
  (forall c, c <> "is-valid" -> c <> "is-invalid" ->
             (c ∈ classList field' <-> c ∈ classList field)).
Proof.
  destruct field as [[|] classes]; cbn; repeat split;
    try discriminate; try set_solver.
Qed.

(** X25: the [input] listener revalidates only fields marked invalid.  So
    after an edit an invalid mark is always true of the new value, while a
    field that was not marked invalid keeps all its classes, a valid mark
    included, even when the edit made it invalid. *)
Theorem on_input_marks (field : Field) (now_valid : bool) :
  let field' := on_input (edit now_valid field) in
  ("is-invalid" ∈ classList field' -> now_valid = false) /\
  ("is-invalid" ∉ classList field -> classList field' = classList field).
Proof.
  destruct field as [valid classes]. unfold on_input, edit. cbn.
  destruct (decide ("is-invalid" ∈ classes)) as [Hin | Hnot];
    destruct now_valid; cbn; split; try set_solver.
Qed.

(** ** main.js [highlightActiveNavigation] *)

Lemma prefix_trans (a b c : string) :
  String.prefix a b = true -> String.prefix b c = true ->
  String.prefix a c = true.
Proof.
  revert b c. induction a as [| x a IH]; intros [| y b] [| z c]; cbn;
    try congruence.
  destruct (ascii_dec x y) as [-> |]; [| congruence].
  destruct (ascii_dec y z) as [-> |]; [| congruence].
  apply IH.
Qed.

Lemma prefix_refl (a : string) : String.prefix a a = true.
Proof.
  induction a as [| x a IH]; cbn; [reflexivity |].
  destruct (ascii_dec x x); [exact IH | congruence].
Qed.

Lemma highlighted_link (currentPath : string) (navLinks : list NavLink)
    (link : NavLink) :
  In link (highlightActiveNavigation currentPath navLinks) ->
  active link = matches_path currentPath (href link) /\
  exists before, In before navLinks /\ href before = href link.
Proof.
  unfold highlightActiveNavigation. rewrite in_map_iff.
  intros (before & <- & Hin).
  destruct (matches_path currentPath (href before)) eqn:Hmatch; cbn;
    rewrite Hmatch; split; try reflexivity; exists before; auto.
Qed.

Lemma prefix_of_root (h : string) :
  String.prefix h "/" = true -> h = "" \/ h = "/".
Proof.
  destruct h as [| c [| c' h]]; cbn; [now left | |].
  - destruct (ascii_dec c "/") as [-> |]; [now right | discriminate].
  - destruct (ascii_dec c "/"); discriminate.
Qed.

(** X26: on the root path exactly the links whose [href] is "/" are
    highlighted; a link with a longer [href], with an empty one or with
    none is not. *)
Theorem root_path_highlights_root_links (navLinks : list NavLink)
    (link : NavLink) :
  In link (highlightActiveNavigation "/" navLinks) ->
  (active link = true <-> href link = Some "/").
Proof.
  intros Hin. apply highlighted_link in Hin as [-> _].
  destruct (href link) as [h |]; [| split; discriminate].
  unfold matches_path.
  destruct (String.eqb_spec h "") as [-> | Hempty]; [split; discriminate |].
  destruct (String.eqb_spec "/" h) as [<- | Hroot]; [split; reflexivity |].
  destruct (String.eqb_spec h "/") as [-> | _]; [congruence |].
  cbn [negb andb orb].
  destruct (String.prefix h "/") eqn:Hprefix.
  - apply prefix_of_root in Hprefix as [-> | ->]; congruence.
  - split; [discriminate | intros [= ->]; congruence].
Qed.

(** X27: highlighting is by prefix, so it is inherited upwards.  When a link
    is highlighted, every link whose [href] is a non-empty prefix of that
    link's [href], other than "/", is highlighted too: several links can be
    active at once. *)
Theorem highlighting_inherited_by_prefixes (currentPath : string)
    (navLinks : list NavLink) (link above : NavLink) (h h' : string) :
  In link (highlightActiveNavigation currentPath navLinks) ->
  In above (highlightActiveNavigation currentPath navLinks) ->
  href link = Some h ->
  href above = Some h' ->
  active link = true ->
  h' <> "" -> h' <> "/" ->
  String.prefix h' h = true ->
  active above = true.
Proof.
  intros Hlink Habove Hh Hh' Hactive Hempty Hroot Hprefix.
  apply highlighted_link in Hlink as [Hl _].
  apply highlighted_link in Habove as [-> _].
  rewrite Hactive, Hh in Hl. rewrite Hh'. unfold matches_path in *.
  assert (Hp : String.prefix h currentPath = true).
  { symmetry in Hl. apply andb_prop in Hl as [_ Hl].
    apply orb_prop in Hl as [Heq | Hpre].
    - apply String.eqb_eq in Heq as ->. apply prefix_refl.
    - now apply andb_prop in Hpre as [_ Hpre]. }
  rewrite (prefix_trans h' h currentPath Hprefix Hp).
  destruct (String.eqb_spec h' "") as [-> | _]; [congruence |].
  destruct (String.eqb_spec h' "/") as [-> | _]; [congruence |].
  cbn. apply orb_true_r.
Qed.

Lemma highlighting_inherited_by_prefixes_witness :
  active (mkNavLink (Some "/tasks") true) = true.
Proof.
  apply (highlighting_inherited_by_prefixes "/tasks/new"
           [mkNavLink (Some "/") false; mkNavLink (Some "/tasks") false;
            mkNavLink (Some "/tasks/new") false;
            mkNavLink (Some "/reports") true]
           (mkNavLink (Some "/tasks/new") true)
           (mkNavLink (Some "/tasks") true)
           "/tasks/new" "/tasks");
    try reflexivity; try discriminate.
  - vm_compute. auto.
  - vm_compute. auto.
Defined.

Lemma root_path_highlights_root_links_witness :
  active (mkNavLink (Some "/") true) = true
  <-> href (mkNavLink (Some "/") true) = Some "/".
Proof.
  apply (root_path_highlights_root_links
           [mkNavLink (Some "/") false; mkNavLink (Some "/tasks") true]
           (mkNavLink (Some "/") true)).
  vm_compute. auto.
Defined.

(** ** The timer's methods as a whole *)


(** X29: the result of a call tells whether it was accepted, and the
    running flag afterwards does not depend on that.  [start] and [resume]
    return [true] exactly when the timer was not running and always leave
    it running; [pause] and [stop] return [true] exactly when it was
    running and always leave it not running. *)
Theorem result_tells_acceptance (w : World) (id : option string) :
  (fst (start id w) = Normal (negb (isRunning (timer w))) /\
   isRunning (timer (snd (start id w))) = true) /\
  (fst (resume w) = Normal (negb (isRunning (timer w))) /\
   isRunning (timer (snd (resume w))) = true) /\
  (fst (pause w) = Normal (isRunning (timer w)) /\
   isRunning (timer (snd (pause w))) = false) /\
  (fst (stop w) = Normal (isRunning (timer w)) /\
   isRunning (timer (snd (stop w))) = false).
Proof.
  open_world w.
  destruct running, avail, handle, text, custom; repeat split.
Qed.

(** X30: a timer that is not running does not tick.  In every reachable
    state with [isRunning = false] — never started, paused, stopped or
    reset — the browser has nothing of the timer's to fire: a tick for any
    handle leaves the world untouched, with no callback and no save. *)
Theorem no_tick_while_not_running (w : World) (now : Z) (h : positive) :
  reachable w ->
  isRunning (timer w) = false ->
  scheduled w = ∅ /\
  deliver now (EvTick h) w = with_clock now w.
Proof.
  intros Hreach Hrun.
  pose proof (reachable_consistent w Hreach) as Hcons.
  unfold consistent in Hcons.
  destruct (interval (timer w)) as [h0 |]; destruct Hcons as [Hsched Hrun'];
    [congruence |].
  split; [exact Hsched |].
  unfold deliver. rewrite tick_not_scheduled; [reflexivity |].
  cbn. rewrite Hsched. set_solver.
Qed.

Lemma no_tick_while_not_running_witness :
  scheduled paused_world = ∅ /\
  deliver 6000 (EvTick 1) paused_world = with_clock 6000 paused_world.
Proof.
  apply (no_tick_while_not_running paused_world 6000 1).
  - unfold paused_world. cbn [run].
    apply reach_deliver, reach_deliver, reach_deliver, reach_new.
  - reflexivity.
Defined.
